(** * The legacy node-label reconciler of kops-controller

    A shallow embedding of
    [cmd/kops-controller/controllers/legacy_node_controller.go]:
    the node and error data, the diff that [Reconcile] computes between the
    labels a node carries and the labels it should carry, and [Reconcile]
    itself with its helpers, written in a small monad that threads the state
    of the outside world and records every call that leaves the controller.

    Label maps are [gmap string string], the delete set (a Go
    [map[string]struct{}]) is a [gset string]. *)

From Stdlib Require Import ZArith.
From stdpp Require Import gmap strings list fin_maps.

Local Open Scope Z_scope.
Local Open Scope stdpp_scope.

(** ** Go map indexing *)

(** [v, found := m[k]]: the value stored under [k], or the zero value of the
    value type (the empty string) when [k] is absent. *)
Definition index (m : gmap string string) (k : string) : string * bool :=
  match m !! k with
  | Some v => (v, true)
  | None => ("", false)
  end.

(** ** The label diff of [Reconcile] (lines 127-144) *)

Section Diff.

(** The four role-label keys named by the [switch] of line 139.  They are
    constants of package [nodelabels], which the controller imports; the
    diff is stated for any four strings. *)
Variables RoleLabelMaster16 RoleLabelAPIServer16 : string.
Variables RoleLabelNode16 RoleLabelControlPlane20 : string.

(** The case list of the [switch], in source order. *)
Definition managedKeys : list string :=
  [RoleLabelMaster16; RoleLabelAPIServer16; RoleLabelNode16;
   RoleLabelControlPlane20].

(** The body of the loop of lines 128-133, for one entry of [labels]. *)
Definition updateStep (nodeLabels : gmap string string) (k v : string)
    (updateLabels : gmap string string) : gmap string string :=
  let '(actual, found) := index nodeLabels k in
  if negb found || negb (bool_decide (actual = v))
  then <[k:=v]> updateLabels
  else updateLabels.

(** The body of the loop of lines 136-144, for one key of the node. *)
Definition deleteStep (labels : gmap string string) (k : string)
    (deleteLabels : gset string) : gset string :=
  if bool_decide (k ∈ managedKeys)
  then let '(_, found) := index labels k in
       if negb found then {[k]} ∪ deleteLabels else deleteLabels
  else deleteLabels.

(** A [range] over a Go map visits its entries once each, in an order the
    language leaves open.  The two loops, for the entries in the order of a
    given listing (the last entry of the list is visited first). *)
Definition rangeUpdate (nodeLabels : gmap string string)
    (entries : list (string * string)) : gmap string string :=
  foldr (λ kv, updateStep nodeLabels kv.1 kv.2) ∅ entries.

Definition rangeDelete (labels : gmap string string)
    (entries : list (string * string)) : gset string :=
  foldr (λ kv, deleteStep labels kv.1) ∅ entries.

(** Lines 127-133, with the entries in the order in which the map lists
    them; [range_order_irrelevant] below shows that any other order gives the
    same sets. *)
Definition updateLabels (nodeLabels labels : gmap string string)
  : gmap string string :=
  rangeUpdate nodeLabels (map_to_list labels).

(** Lines 135-144. *)
Definition deleteLabels (nodeLabels labels : gmap string string)
  : gset string :=
  rangeDelete labels (map_to_list nodeLabels).

(** Line 146: [len(updateLabels) == 0 && len(deleteLabels) == 0]. *)
Definition noChanges (upd : gmap string string) (del : gset string) : bool :=
  bool_decide (size upd = 0%nat) && bool_decide (size del = 0%nat).

End Diff.

(** Modelled from the spec: the effect of the patch call on the label map of
    the node.  [patchNodeLabels] and the API server behind it are not part of
    the controller file; section 6 of the specification describes
    [Patch(name, setLabels, deleteLabelKeys)] as a partial update that sets
    the first, removes the second and leaves every label it does not mention
    untouched. *)
Definition applyPatch (L setLabels : gmap string string)
    (deleteLabelKeys : gset string) : gmap string string :=
  filter (λ kv, kv.1 ∉ deleteLabelKeys) (setLabels ∪ L).

(** ** Data of the controller *)

(** [types.NamespacedName], the key of a reconcile request. *)
Record NamespacedName := { Namespace : string; RequestName : string }.

(** The fields of [corev1.Node] that the controller reads. *)
Record Node := {
  Name : string;
  Labels : gmap string string;
  ProviderID : string          (* node.Spec.ProviderID *)
}.

(** [nodeidentity.LegacyIdentity]. *)
Record LegacyIdentity := {
  InstanceGroup : string;
  InstanceLifecycle : string
}.

(** [ctrl.Result]; every return of [Reconcile] carries its zero value. *)
Record Result := { Requeue : bool; RequeueAfter : Z }.

Definition Result0 : Result := {| Requeue := false; RequeueAfter := 0 |}.

(** [time.Hour], a [time.Duration] in nanoseconds. *)
Definition time_Hour : Z := 3600000000000.

(** [fmt.Sprintf("node-role.kubernetes.io/%s-worker", lifecycle)]. *)
Definition lifecycleLabel (lifecycle : string) : string :=
  "node-role.kubernetes.io/" +:+ lifecycle +:+ "-worker".

(** Lines 123-125: the label added for a non-empty lifecycle. *)
Definition withLifecycle (labels : gmap string string) (lifecycle : string)
  : gmap string string :=
  if bool_decide (0 < String.length lifecycle)%nat
  then <[lifecycleLabel lifecycle := "true"]> labels
  else labels.

(** Does [s] end in [suffix]?  (Go's [strings.HasSuffix].) *)
Fixpoint hasSuffix (s suffix : string) : bool :=
  bool_decide (s = suffix) ||
  match s with
  | EmptyString => false
  | String _ s' => hasSuffix s' suffix
  end.

Section Controller.

(** The state of everything outside the controller (API server, manifest
    store and its cache, cloud provider), the paths of the manifest store
    ([vfs.Path]), the two manifest types ([api.Cluster], [api.InstanceGroup])
    and the errors that the collaborators produce. *)
Context {World Path api_Cluster api_InstanceGroup ExtError : Type}.
Context `{EqDecision Path}.

(** What [kopscodecs.Decode] can return: a [runtime.Object], of which the
    controller tells apart clusters, instance groups and everything else
    (by Go type name). *)
Inductive Object :=
| ObjCluster (cluster : api_Cluster)
| ObjInstanceGroup (ig : api_InstanceGroup)
| ObjOther (goType : string).

(** An operand of a format string. *)
Inductive operand (E : Type) :=
| OpString (s : string)
| OpPath (p : Path)
| OpError (e : E)
| OpType (o : Object).

Arguments OpString {E} s.
Arguments OpPath {E} p.
Arguments OpError {E} e.
Arguments OpType {E} o.

#[local] Set Warnings "-register-all".

(** Go [error] values: those handed in by a collaborator and those built by
    [fmt.Errorf], kept as format string and operands. *)
Inductive error :=
| External (e : ExtError)
| Errorf (format : string) (args : list (operand error)).

(** A Go result pair [(value, err)] with [err] deciding which one counts. *)
Inductive result (A : Type) :=
| Ok (a : A)
| Err (err : error).

Arguments Ok {A} a.
Arguments Err {A} err.


(** ** Calls that leave the controller *)

Inductive Severity :=
| Warning
| InfoV (level : Z).

Inductive Event :=
| EvGet (key : NamespacedName)
| EvRead (p : Path) (ttl : Z)
| EvIdentifyNode (node : Node)
| EvPatch (node : Node) (setLabels : gmap string string)
    (deleteLabelKeys : gset string)
| EvLog (sev : Severity) (format : string) (args : list (operand error)).

Definition isRead (ev : Event) : bool :=
  match ev with EvRead _ _ => true | _ => false end.

Definition isIdentifyNode (ev : Event) : bool :=
  match ev with EvIdentifyNode _ => true | _ => false end.

Definition isPatch (ev : Event) : bool :=
  match ev with EvPatch _ _ _ => true | _ => false end.

(** How many events of a kind a trace holds. *)
Definition calls (kind : Event → bool) (tr : list Event) : nat :=
  length (List.filter kind tr).

(** The functions and constants the controller imports from other
    packages. *)
Record Packages := {
  (* vfs.Path.Join *)
  Join : Path → list string → Path;
  (* registry.PathClusterCompleted *)
  PathClusterCompleted : string;
  (* kopscodecs.Decode *)
  Decode : list Byte.byte → result Object;
  (* nodelabels.BuildNodeLabels *)
  BuildNodeLabels : api_Cluster → api_InstanceGroup →
                    result (gmap string string);
  (* apierrors.IsNotFound *)
  IsNotFound : error → bool;
  (* nodelabels.RoleLabel... *)
  RoleLabelMaster16 : string;
  RoleLabelAPIServer16 : string;
  RoleLabelNode16 : string;
  RoleLabelControlPlane20 : string
}.

(** [LegacyNodeReconciler].  Each collaborator field holds the one method
    the controller calls on it, as a function of the state of the world.
    [client] is [client.Get], which fills the node it is handed and returns
    an error or nil; [coreV1Client] is only ever passed to
    [patchNodeLabels], so the field holds that call; the [log] field is
    never used for output. *)
Record LegacyNodeReconciler := {
  client : NamespacedName → World → (Node * option error) * World;
  coreV1Client : Node → gmap string string → gset string → World →
                 option error * World;
  identifier : Node → World → result LegacyIdentity * World;
  configBase : Path;
  cache : Path → Z → World → result (list Byte.byte) * World
}.

(** ** The monad: world state in, value, world state and calls out *)

Definition M (A : Type) : Type := World → A * World * list Event.

#[local] Instance M_ret : MRet M := λ A a w, (a, w, []).

#[local] Instance M_bind : MBind M := λ A B f m w,
  let '(a, w1, t1) := m w in
  let '(b, w2, t2) := f a w1 in
  (b, w2, t1 ++ t2).

(** One call to a collaborator. *)
Definition call {A} (ev : Event) (f : World → A * World) : M A :=
  λ w, let '(a, w') := f w in (a, w', [ev]).

(** [klog.Warningf] and [klog.V(n).Infof]. *)
Definition klog (sev : Severity) (format : string)
    (args : list (operand error)) : M unit :=
  λ w, (tt, w, [EvLog sev format args]).

(** ** The controller *)

Variable pkg : Packages.

(** Lines 213-229. *)
Definition loadCluster (r : LegacyNodeReconciler) (p : Path)
  : M (result api_Cluster) :=
  let ttl := time_Hour in
  b ← call (EvRead p ttl) (cache r p ttl);
  match b with
  | Err err =>
      mret (Err (Errorf "error loading Cluster %q: %v" [OpPath p; OpError err]))
  | Ok b =>
      match Decode pkg b with
      | Err err =>
          mret (Err (Errorf "error parsing Cluster %q: %v"
                       [OpPath p; OpError err]))
      | Ok o =>
          match o with
          | ObjCluster cluster => mret (Ok cluster)
          | _ =>
              mret (Err (Errorf "unexpected object type for Cluster %q: %T"
                           [OpPath p; OpType o]))
          end
      end
  end.

(** Lines 232-252. *)
Definition loadNamedInstanceGroup (r : LegacyNodeReconciler) (name : string)
  : M (result api_InstanceGroup) :=
  let p := Join pkg (configBase r) ["instancegroup"; name] in
  let ttl := time_Hour in
  b ← call (EvRead p ttl) (cache r p ttl);
  match b with
  | Err err =>
      mret (Err (Errorf "error loading InstanceGroup %q: %v"
                   [OpPath p; OpError err]))
  | Ok b =>
      match Decode pkg b with
      | Err err =>
          mret (Err (Errorf "error parsing %s: %w" [OpPath p; OpError err]))
      | Ok object =>
          match object with
          | ObjInstanceGroup instanceGroup => mret (Ok instanceGroup)
          | _ =>
              mret (Err (Errorf "unexpected type, expected InstanceGroup, got %T"
                           [OpType object]))
          end
      end
  end.

(** Lines 167-174. *)
Definition getClusterForNode (r : LegacyNodeReconciler) (node : Node)
  : M (result api_Cluster) :=
  let clusterPath := Join pkg (configBase r) [PathClusterCompleted pkg] in
  cluster ← loadCluster r clusterPath;
  match cluster with
  | Err err => mret (Err err)
  | Ok cluster => mret (Ok cluster)
  end.

(** Lines 177-184. *)
Definition getInstanceLifecycle (r : LegacyNodeReconciler) (node : Node)
  : M (result string) :=
  identity ← call (EvIdentifyNode node) (identifier r node);
  match identity with
  | Err err =>
      mret (Err (Errorf "error identifying node %q: %v"
                   [OpString (Name node); OpError err]))
  | Ok identity => mret (Ok (InstanceLifecycle identity))
  end.

(** Lines 187-210. *)
Definition getInstanceGroupForNode (r : LegacyNodeReconciler) (node : Node)
  : M (result api_InstanceGroup) :=
  let instanceGroupName := (index (Labels node) "kops.k8s.io/instancegroup").1 in
  if bool_decide (instanceGroupName = "") then
    let providerID := ProviderID node in
    if bool_decide (providerID = "") then
      mret (Err (Errorf "node providerID not set for node %q"
                   [OpString (Name node)]))
    else
      identity ← call (EvIdentifyNode node) (identifier r node);
      match identity with
      | Err err =>
          mret (Err (Errorf "error identifying node %q: %v"
                       [OpString (Name node); OpError err]))
      | Ok identity =>
          if bool_decide (InstanceGroup identity = "") then
            mret (Err (Errorf "node %q did not have an associate instance group"
                         [OpString (Name node)]))
          else
            loadNamedInstanceGroup r (InstanceGroup identity)
      end
  else
    loadNamedInstanceGroup r instanceGroupName.

(** [patchNodeLabels(r.coreV1Client, ctx, node, updateLabels, deleteLabels)]. *)
Definition patchNodeLabels (r : LegacyNodeReconciler) (node : Node)
    (setLabels : gmap string string) (deleteLabelKeys : gset string)
  : M (option error) :=
  call (EvPatch node setLabels deleteLabelKeys)
       (coreV1Client r node setLabels deleteLabelKeys).

(** Lines 88-157. *)
Definition Reconcile (r : LegacyNodeReconciler) (req : NamespacedName)
  : M (Result * option error) :=
  '(node, err) ← call (EvGet req) (client r req);
  match err with
  | Some err =>
      klog Warning "unable to fetch node %s: %v"
        [OpString (Name node); OpError err];;
      if IsNotFound pkg err then mret (Result0, None)
      else mret (Result0, Some err)
  | None =>
  cluster ← getClusterForNode r node;
  match cluster with
  | Err err =>
      mret (Result0,
            Some (Errorf "unable to load cluster object for node %s: %v"
                    [OpString (Name node); OpError err]))
  | Ok cluster =>
  ig ← getInstanceGroupForNode r node;
  match ig with
  | Err err =>
      mret (Result0,
            Some (Errorf "unable to load instance group object for node %s: %v"
                    [OpString (Name node); OpError err]))
  | Ok ig =>
  match BuildNodeLabels pkg cluster ig with
  | Err err =>
      mret (Result0,
            Some (Errorf "error building node labels for node %q: %w"
                    [OpString (Name node); OpError err]))
  | Ok labels =>
  lifecycle ← getInstanceLifecycle r node;
  match lifecycle with
  | Err err =>
      mret (Result0,
            Some (Errorf "unable to get instance lifecycle %s: %v"
                    [OpString (Name node); OpError err]))
  | Ok lifecycle =>
  let labels := withLifecycle labels lifecycle in
  let updateLabels := updateLabels (Labels node) labels in
  let deleteLabels :=
    deleteLabels (RoleLabelMaster16 pkg) (RoleLabelAPIServer16 pkg)
      (RoleLabelNode16 pkg) (RoleLabelControlPlane20 pkg)
      (Labels node) labels in
  if noChanges updateLabels deleteLabels then
    klog (InfoV 4) "no label changes needed for %s" [OpString (Name node)];;
    mret (Result0, None)
  else
    err ← patchNodeLabels r node updateLabels deleteLabels;
    match err with
    | Some err =>
        klog Warning "failed to patch node labels on %s: %v"
          [OpString (Name node); OpError err];;
        mret (Result0, Some err)
    | None => mret (Result0, None)
    end
  end end end end end.

(** Lines 127-157 of [Reconcile] on their own: the diff of the labels of
    [node] against the desired [labels], the short-circuit and the patch. *)
Definition diffAndPatch (r : LegacyNodeReconciler) (node : Node)
    (labels : gmap string string) : M (Result * option error) :=
  let updateLabels := updateLabels (Labels node) labels in
  let deleteLabels :=
    deleteLabels (RoleLabelMaster16 pkg) (RoleLabelAPIServer16 pkg)
      (RoleLabelNode16 pkg) (RoleLabelControlPlane20 pkg)
      (Labels node) labels in
  if noChanges updateLabels deleteLabels then
    klog (InfoV 4) "no label changes needed for %s" [OpString (Name node)];;
    mret (Result0, None)
  else
    err ← patchNodeLabels r node updateLabels deleteLabels;
    match err with
    | Some err =>
        klog Warning "failed to patch node labels on %s: %v"
          [OpString (Name node); OpError err];;
        mret (Result0, Some err)
    | None => mret (Result0, None)
    end.

(** The outcome [x] of the rest of a pass, with the calls [tr] made before
    it put in front. *)
Definition after {A} (tr : list Event) (x : A * World * list Event)
  : A * World * list Event :=
  let '(a, w, t) := x in (a, w, tr ++ t).

(** ** Stages of a pass *)

(** The pass fetched [node], loaded both manifests and built [labels]
    (lines 91-116): it stands before the lifecycle step of line 118 in world
    [w3], having made the calls [tr]. *)
Definition reachesLifecycle (r : LegacyNodeReconciler) (req : NamespacedName)
    (w : World) (node : Node) (labels : gmap string string)
    (w3 : World) (tr : list Event) : Prop :=
  ∃ w1 cluster w2 tr2 ig tr3,
    client r req w = ((node, None), w1) ∧
    getClusterForNode r node w1 = (Ok cluster, w2, tr2) ∧
    getInstanceGroupForNode r node w2 = (Ok ig, w3, tr3) ∧
    BuildNodeLabels pkg cluster ig = Ok labels ∧
    tr = EvGet req :: tr2 ++ tr3.

(** Group resolution (lines 190-207) settles on [name], either from the
    group label of the node, without a call, or from the identity provider,
    with one; after that it stands before the manifest read in world [w']. *)
Definition resolvesGroupName (r : LegacyNodeReconciler) (node : Node)
    (w : World) (name : string) (w' : World) (tr : list Event) : Prop :=
  name ≠ "" ∧
  ((Labels node !! "kops.k8s.io/instancegroup" = Some name ∧
    w' = w ∧ tr = []) ∨
   ((index (Labels node) "kops.k8s.io/instancegroup").1 = "" ∧
    ProviderID node ≠ "" ∧
    ∃ identity, identifier r node w = (Ok identity, w') ∧
                InstanceGroup identity = name ∧
                tr = [EvIdentifyNode node])).

(** The pass also obtained [lifecycle] (lines 118-121): it stands before the
    diff in world [w4]. *)
Definition resolvesLabels (r : LegacyNodeReconciler) (req : NamespacedName)
    (w : World) (node : Node) (labels : gmap string string)
    (lifecycle : string) (w4 : World) (tr : list Event) : Prop :=
  ∃ w3 tr3 tr4,
    reachesLifecycle r req w node labels w3 tr3 ∧
    getInstanceLifecycle r node w3 = (Ok lifecycle, w4, tr4) ∧
    tr = tr3 ++ tr4.

End Controller.

Arguments OpString {Path api_Cluster api_InstanceGroup E} s.
Arguments OpPath {Path api_Cluster api_InstanceGroup E} p.
Arguments OpError {Path api_Cluster api_InstanceGroup E} e.
Arguments OpType {Path api_Cluster api_InstanceGroup E} o.
Arguments Ok {Path api_Cluster api_InstanceGroup ExtError A} a.
Arguments Err {Path api_Cluster api_InstanceGroup ExtError A} err.

(** ** The constructor *)

Section Constructor.

Context {World Path api_Cluster api_InstanceGroup ExtError RestConfig : Type}.

Abbreviation error' := (@error Path api_Cluster api_InstanceGroup ExtError).
Abbreviation result' := (@result Path api_Cluster api_InstanceGroup ExtError).

(** The two methods of [manager.Manager] that the constructor calls:
    [GetClient], whose client is kept as the [client] field, and
    [GetConfig]. *)
Record Manager := {
  GetClient : NamespacedName → World → (Node * option error') * World;
  GetConfig : RestConfig
}.

(** Lines 41-62.  [NewForConfig] is [corev1client.NewForConfig],
    [NewCache] the cache that [vfs.NewCache()] hands out, [BuildVfsPath] the
    method of the [vfsContext] argument.  The [log] field is left out, as in
    [LegacyNodeReconciler]. *)
Definition NewLegacyNodeReconciler
    (NewForConfig :
       RestConfig →
       result' (Node → gmap string string → gset string → World →
                option error' * World))
    (NewCache : Path → Z → World → result' (list Byte.byte) * World)
    (mgr : Manager) (BuildVfsPath : string → result' Path)
    (configPath : string)
    (identifier : Node → World → result' LegacyIdentity * World)
  : result' (@LegacyNodeReconciler World Path api_Cluster api_InstanceGroup
               ExtError) :=
  match NewForConfig (GetConfig mgr) with
  | Err err => Err (Errorf "error building corev1 client: %v" [OpError err])
  | Ok coreClient =>
      match BuildVfsPath configPath with
      | Err err =>
          Err (Errorf "cannot parse ConfigBase %q: %v"
                 [OpString configPath; OpError err])
      | Ok configBase =>
          Ok {| client := GetClient mgr;
                coreV1Client := coreClient;
                identifier := identifier;
                configBase := configBase;
                cache := NewCache |}
      end
  end.

End Constructor.

(** ** A small cluster to run the controller on *)

Module Demo.

(** The world counts the calls it has served; paths are strings; a cluster
    manifest carries nothing, an instance group its name; a collaborator's
    error is its message. *)
Abbreviation error := (@error string unit string string).
Abbreviation result := (@result string unit string string).
Abbreviation Event := (@Event string unit string string).

Definition clusterBytes : list Byte.byte := [Byte.x63].
Definition groupBytes : list Byte.byte := [Byte.x67].
Definition keysetBytes : list Byte.byte := [Byte.x6b].
Definition brokenBytes : list Byte.byte := [Byte.x3f].

Definition decode (b : list Byte.byte) : result (@Object unit string) :=
  match b with
  | [Byte.x63] => Ok (ObjCluster tt)
  | [Byte.x67] => Ok (ObjInstanceGroup "nodes")
  | [Byte.x6b] => Ok (ObjOther "*kops.Keyset")
  | _ => Err (External "yaml: did not find expected node content")
  end.

(** The role-label keys as package [nodelabels] declares them upstream. *)
Definition packages : @Packages string unit string string := {|
  Join := λ p rel, foldl (λ acc s, acc +:+ "/" +:+ s) p rel;
  PathClusterCompleted := "cluster-completed.spec";
  Decode := decode;
  BuildNodeLabels := λ _ ig,
    Ok {[ "node-role.kubernetes.io/node" := "";
          "kops.k8s.io/instancegroup" := ig ]};
  IsNotFound := λ e,
    match e with
    | External msg => bool_decide (msg = "NotFound")
    | Errorf _ _ => false
    end;
  RoleLabelMaster16 := "node-role.kubernetes.io/master";
  RoleLabelAPIServer16 := "node-role.kubernetes.io/api-server";
  RoleLabelNode16 := "node-role.kubernetes.io/node";
  RoleLabelControlPlane20 := "node-role.kubernetes.io/control-plane"
|}.

Definition base : string := "memfs://clusters.example.com/demo".

(** A manifest store with a cluster manifest and the group [nodes]. *)
Definition store (p : string) : result (list Byte.byte) :=
  if bool_decide (p = base +:+ "/cluster-completed.spec") then Ok clusterBytes
  else if bool_decide (p = base +:+ "/instancegroup/nodes") then Ok groupBytes
  else Err (External "NotFound").

(** The same store with a cluster manifest that does not parse. *)
Definition storeBrokenCluster (p : string) : result (list Byte.byte) :=
  if bool_decide (p = base +:+ "/cluster-completed.spec") then Ok brokenBytes
  else store p.

(** The same store with a keyset where the cluster manifest should be. *)
Definition storeKeysetCluster (p : string) : result (list Byte.byte) :=
  if bool_decide (p = base +:+ "/cluster-completed.spec") then Ok keysetBytes
  else store p.

(** The same store with a group manifest that does not parse. *)
Definition storeBrokenGroup (p : string) : result (list Byte.byte) :=
  if bool_decide (p = base +:+ "/instancegroup/nodes") then Ok brokenBytes
  else store p.


Definition reconciler (fetched : Node * option error)
    (manifests : string → result (list Byte.byte))
    (identity : result LegacyIdentity) (patched : option error)
  : @LegacyNodeReconciler nat string unit string string := {|
  client := λ _ w, (fetched, S w);
  coreV1Client := λ _ _ _ w, (patched, S w);
  identifier := λ _ w, (identity, S w);
  configBase := base;
  cache := λ p _ w, (manifests p, S w)
|}.

Definition request : NamespacedName :=
  {| Namespace := ""; RequestName := "node-1" |}.

(** A node that has just joined: no labels yet. *)
Definition freshNode : Node := {|
  Name := "node-1";
  Labels := ∅;
  ProviderID := "aws:///us-east-1a/i-0123456789abcdef0"
|}.

(** The same node without a provider ID. *)
Definition anonymousNode : Node := {|
  Name := "node-1";
  Labels := ∅;
  ProviderID := ""
|}.

(** A node that carries its group label, a legacy control-plane label, a
    spot label of an earlier pass and a label of somebody else. *)
Definition labelledNode : Node := {|
  Name := "node-1";
  Labels := {[ "kops.k8s.io/instancegroup" := "nodes";
               "node-role.kubernetes.io/master" := "";
               "node-role.kubernetes.io/spot-worker" := "true";
               "example.com/team" := "storage" ]};
  ProviderID := "aws:///us-east-1a/i-0123456789abcdef0"
|}.

(** A node that already carries exactly what the pass wants. *)
Definition settledNode : Node := {|
  Name := "node-1";
  Labels := {[ "kops.k8s.io/instancegroup" := "nodes";
               "node-role.kubernetes.io/node" := "";
               "example.com/team" := "storage" ]};
  ProviderID := "aws:///us-east-1a/i-0123456789abcdef0"
|}.

(** The node object of a fetch that found nothing: the zero value. *)
Definition zeroNode : Node := {| Name := ""; Labels := ∅; ProviderID := "" |}.

Definition clusterPath : string := base +:+ "/cluster-completed.spec".
Definition groupPath : string := base +:+ "/instancegroup/nodes".

(** What [BuildNodeLabels] of [packages] yields for the group [nodes]. *)
Definition nodesLabels : gmap string string :=
  {[ "node-role.kubernetes.io/node" := "";
     "kops.k8s.io/instancegroup" := "nodes" ]}.

Definition onDemand : LegacyIdentity :=
  {| InstanceGroup := "nodes"; InstanceLifecycle := "" |}.

Definition spot : LegacyIdentity :=
  {| InstanceGroup := "nodes"; InstanceLifecycle := "spot" |}.

End Demo.

(** ** The same cluster with things going wrong *)

Module DemoFaults.

Import Demo.

(** A manifest store that cannot be reached. *)
Definition storeDown (p : string) : result (list Byte.byte) :=
  Err (External "dial tcp: connection refused").

(** An instance whose group has no manifest in the store. *)
Definition departed : LegacyIdentity :=
  {| InstanceGroup := "gone"; InstanceLifecycle := "" |}.

(** An instance that the provider knows but cannot place in a group. *)
Definition groupless : LegacyIdentity :=
  {| InstanceGroup := ""; InstanceLifecycle := "spot" |}.

(** A node whose group label is there but empty, without provider ID. *)
Definition blankNode : Node := {|
  Name := "node-1";
  Labels := {[ "kops.k8s.io/instancegroup" := "" ]};
  ProviderID := ""
|}.

(** [packages] with a label policy that rejects every group. *)
Definition packagesNoLabels : @Packages string unit string string := {|
  Join := Join packages;
  PathClusterCompleted := PathClusterCompleted packages;
  Decode := Decode packages;
  BuildNodeLabels := λ _ _, Err (External "unknown instance group role");
  IsNotFound := IsNotFound packages;
  RoleLabelMaster16 := RoleLabelMaster16 packages;
  RoleLabelAPIServer16 := RoleLabelAPIServer16 packages;
  RoleLabelNode16 := RoleLabelNode16 packages;
  RoleLabelControlPlane20 := RoleLabelControlPlane20 packages
|}.

(** A manager whose client finds the fresh node, with the address of the
    API server as its configuration. *)
Definition manager : @Manager nat string unit string string string := {|
  GetClient := λ _ w, ((freshNode, None), S w);
  GetConfig := "https://api.internal.demo.example.com"
|}.

(** A client for patching can be built for every address but the empty
    one; the client that is built accepts every patch. *)
Definition newForConfig (host : string)
  : result (Node → gmap string string → gset string → nat →
            option error * nat) :=
  if bool_decide (host = "") then Err (External "host must be a URL")
  else Ok (λ _ _ _ w, (None, S w)).

(** Paths parse when they name the in-memory store. *)
Definition buildVfsPath (configPath : string) : result string :=
  if String.prefix "memfs://" configPath then Ok configPath
  else Err (External "unknown scheme").

Definition newCache (p : string) (ttl : Z) (w : nat)
  : result (list Byte.byte) * nat :=
  (store p, S w).

Definition identifySpot (node : Node) (w : nat) : result LegacyIdentity * nat :=
  (Ok spot, S w).

End DemoFaults.

(** ** Facts about the diff *)

Section DiffFacts.

Variables c1 c2 c3 c4 : string.

Abbreviation del := (deleteLabels c1 c2 c3 c4).
Abbreviation managed := (managedKeys c1 c2 c3 c4).

(** What the first loop leaves under each key, whatever the order. *)
Lemma lookup_rangeUpdate (L : gmap string string)
    (entries : list (string * string)) k :
  NoDup entries.*1 →
  rangeUpdate L entries !! k =
    match (list_to_map entries : gmap string string) !! k with
    | Some v => if decide (L !! k = Some v) then None else Some v
    | None => None
    end.
Proof.
  induction entries as [|[i x] entries IH]; intros Hnodup.
  { unfold rangeUpdate. simpl. by rewrite !lookup_empty. }
  rewrite fmap_cons in Hnodup. simpl in Hnodup.
  apply NoDup_cons in Hnodup as [Hi Hnodup].
  apply (not_elem_of_list_to_map_1 (M:=gmap string)) in Hi.
  specialize (IH Hnodup).
  change (rangeUpdate L ((i, x) :: entries))
    with (updateStep L i x (rangeUpdate L entries)).
  rewrite list_to_map_cons. unfold updateStep, index.
  destruct (decide (i = k)) as [->|Hne].
  - rewrite lookup_insert_eq.
    destruct (L !! k) as [a|] eqn:HL; simpl.
    + case_bool_decide as Hav; simpl.
      * subst a. rewrite IH, Hi. by case_decide.
      * rewrite lookup_insert_eq. case_decide; congruence.
    + rewrite lookup_insert_eq. try case_decide; congruence.
  - rewrite (lookup_insert_ne (list_to_map entries)) by done. rewrite <- IH.
    destruct (L !! i) as [a|]; simpl.
    + case_bool_decide; simpl; [done|]. by rewrite lookup_insert_ne.
    + by rewrite lookup_insert_ne.
Qed.

(** What the second loop collects, whatever the order. *)
Lemma elem_of_rangeDelete (D : gmap string string)
    (entries : list (string * string)) k :
  k ∈ rangeDelete c1 c2 c3 c4 D entries ↔
  k ∈ entries.*1 ∧ k ∈ managed ∧ D !! k = None.
Proof.
  induction entries as [|[i x] entries IH].
  { split; [by intros ?%not_elem_of_empty|].
    by intros [?%not_elem_of_nil _]. }
  change (rangeDelete c1 c2 c3 c4 D ((i, x) :: entries))
    with (deleteStep c1 c2 c3 c4 D i (rangeDelete c1 c2 c3 c4 D entries)).
  rewrite fmap_cons, elem_of_cons. unfold deleteStep, index. simpl.
  case_bool_decide as Hm.
  - destruct (D !! i) as [v|] eqn:HD; simpl.
    + rewrite IH. split; [tauto|].
      intros ([->|?] & ? & ?); [congruence|done].
    + rewrite elem_of_union, elem_of_singleton, IH. split.
      * intros [->|?]; tauto.
      * intros ([->|?] & ? & ?); tauto.
  - rewrite IH. split; [tauto|]. intros ([->|?] & ? & ?); done.
Qed.

Lemma lookup_updateLabels (L D : gmap string string) k :
  updateLabels L D !! k =
    match D !! k with
    | Some v => if decide (L !! k = Some v) then None else Some v
    | None => None
    end.
Proof.
  unfold updateLabels.
  rewrite lookup_rangeUpdate by apply NoDup_fst_map_to_list.
  by rewrite list_to_map_to_list.
Qed.

Lemma elem_of_deleteLabels (L D : gmap string string) k :
  k ∈ del L D ↔ is_Some (L !! k) ∧ k ∈ managed ∧ D !! k = None.
Proof.
  unfold deleteLabels. rewrite elem_of_rangeDelete.
  rewrite <- elem_of_dom, dom_alt, elem_of_list_to_set. done.
Qed.

(** X20.  The order in which the two [range] loops visit the entries does
    not matter: every listing of the entries, each key once, gives the sets of
    [updateLabels] and [deleteLabels]. *)
Lemma range_order_irrelevant (L D : gmap string string)
    (desired current : list (string * string)) :
  NoDup desired.*1 → list_to_map desired = D →
  NoDup current.*1 → list_to_map current = L →
  rangeUpdate L desired = updateLabels L D ∧
  rangeDelete c1 c2 c3 c4 D current = del L D.
Proof.
  intros Hd <- Hc <-. split.
  - apply map_eq. intros k.
    by rewrite lookup_rangeUpdate, lookup_updateLabels.
  - apply set_eq. intros k.
    rewrite elem_of_rangeDelete, elem_of_deleteLabels.
    rewrite <- elem_of_dom, dom_list_to_map_L, elem_of_list_to_set. done.
Qed.

(** What the patch leaves under each key. *)
Lemma lookup_applyPatch (L U : gmap string string) (X : gset string) k :
  applyPatch L U X !! k =
    if decide (k ∈ X) then None
    else match U !! k with Some v => Some v | None => L !! k end.
Proof.
  unfold applyPatch. rewrite map_lookup_filter, lookup_union.
  destruct (U !! k) as [u|] eqn:HU; destruct (L !! k) as [l|] eqn:HL; simpl;
    repeat case_guard; repeat case_decide; simpl in *; try done.
Qed.

(** The patch of the diff, applied to the labels of the node: desired keys
    take their desired value, managed keys that are not desired go, the rest
    stays. *)
Lemma lookup_applyPatch_diff (L D : gmap string string) k :
  applyPatch L (updateLabels L D) (del L D) !! k =
    match D !! k with
    | Some v => Some v
    | None => if decide (k ∈ managed) then None else L !! k
    end.
Proof.
  rewrite lookup_applyPatch, lookup_updateLabels.
  destruct (decide (k ∈ del L D)) as [Hin|Hout].
  - apply elem_of_deleteLabels in Hin as (_ & Hm & ->).
    by rewrite decide_True.
  - destruct (D !! k) as [v|] eqn:HD.
    + case_decide; congruence.
    + case_decide as Hm; [|done].
      destruct (L !! k) as [l|] eqn:HL; [|done].
      exfalso. apply Hout, elem_of_deleteLabels. eauto.
Qed.

(** C1.  For all current labels [L] and desired labels [D]: the update set
    is exactly the desired entries whose key is absent from [L] or bound to
    another value there; the delete set is exactly the keys of [L] that are
    managed and not desired; the two are disjoint; and the patch (set the
    update set, remove the delete set) turns [L] into a map that agrees with
    [D] on every managed or desired key and with [L] on every other key. *)
Theorem diff_exact (L D : gmap string string) :
  updateLabels L D =
    filter (λ kv, kv.1 ∉ dom L ∨ L !! kv.1 ≠ Some kv.2) D ∧
  del L D = filter (λ k, k ∈ managed ∧ k ∉ dom D) (dom L) ∧
  dom (updateLabels L D) ## del L D ∧
  (∀ k, k ∈ managed ∨ k ∈ dom D →
        applyPatch L (updateLabels L D) (del L D) !! k = D !! k) ∧
  (∀ k, k ∉ managed → k ∉ dom D →
        applyPatch L (updateLabels L D) (del L D) !! k = L !! k).
Proof.
  split; [|split; [|split; [|split]]].
  - apply map_eq. intros k.
    rewrite lookup_updateLabels, map_lookup_filter.
    destruct (D !! k) as [v|] eqn:HD; simpl; [|done].
    case_decide as HL; case_guard as HG; simpl in *; try done.
    + destruct HG as [HG|HG]; [|done].
      exfalso. apply HG, elem_of_dom. eauto.
    + exfalso. apply HG. by right.
  - apply set_eq. intros k.
    rewrite elem_of_deleteLabels, elem_of_filter, !elem_of_dom.
    rewrite <- eq_None_not_Some. tauto.
  - intros k Hu Hd. apply elem_of_deleteLabels in Hd as (_ & _ & HD).
    apply elem_of_dom in Hu as [v Hu].
    rewrite lookup_updateLabels, HD in Hu. discriminate.
  - intros k Hk. rewrite lookup_applyPatch_diff.
    destruct (D !! k) as [v|] eqn:HD; [done|].
    destruct Hk as [Hk|Hk].
    + by rewrite decide_True.
    + apply elem_of_dom in Hk as [? ?]. congruence.
  - intros k Hm HD. rewrite lookup_applyPatch_diff.
    apply not_elem_of_dom in HD. rewrite HD. by rewrite decide_False.
Qed.

(** C2.  Every key of the delete set is one of the managed keys, and a
    label of the node that is neither desired nor managed is in neither the
    update set nor the delete set; the patch leaves it as it is. *)
Theorem unrelated_labels_untouched (L D : gmap string string) :
  (∀ k, k ∈ del L D → k ∈ managed) ∧
  (∀ k, k ∈ dom L → k ∉ dom D → k ∉ managed →
        (k ∉ dom (updateLabels L D)) ∧ (k ∉ del L D) ∧
        applyPatch L (updateLabels L D) (del L D) !! k = L !! k).
Proof.
  split.
  - intros k Hk. by apply elem_of_deleteLabels in Hk as (_ & ? & _).
  - intros k _ HD Hm. apply not_elem_of_dom in HD. split; [|split].
    + apply not_elem_of_dom. by rewrite lookup_updateLabels, HD.
    + intros Hk. by apply elem_of_deleteLabels in Hk as (_ & ? & _).
    + rewrite lookup_applyPatch_diff, HD. by rewrite decide_False.
Qed.

End DiffFacts.

(** ** Strings *)

Lemma length_append (a b : string) :
  String.length (a +:+ b) = (String.length a + String.length b)%nat.
Proof. induction a as [|c a IH]; simpl; [done|]. by rewrite IH. Qed.

Lemma append_cancel_r (a b s : string) : a +:+ s = b +:+ s → a = b.
Proof.
  revert b. induction a as [|c a IH]; intros [|d b] Heq.
  - done.
  - apply (f_equal String.length) in Heq.
    rewrite !length_append in Heq. simpl in Heq. lia.
  - apply (f_equal String.length) in Heq.
    rewrite !length_append in Heq. simpl in Heq. lia.
  - simpl in Heq. injection Heq as -> Heq. f_equal. by apply IH.
Qed.

Lemma lifecycleLabel_inj (x y : string) :
  lifecycleLabel x = lifecycleLabel y → x = y.
Proof.
  unfold lifecycleLabel. intros Heq.
  apply (inj (String.app "node-role.kubernetes.io/")) in Heq.
  by apply append_cancel_r in Heq.
Qed.

Lemma hasSuffix_append (a s : string) : hasSuffix (a +:+ s) s = true.
Proof.
  induction a as [|c a IH]; simpl.
  - destruct s; cbn [String.append hasSuffix]; apply orb_true_iff; left;
      by apply bool_decide_eq_true_2.
  - rewrite IH. by rewrite orb_true_r.
Qed.

Lemma append_assoc (a b c : string) : (a +:+ b) +:+ c = a +:+ b +:+ c.
Proof.
  induction a as [|d a IH]; [done|].
  change (String d ((a +:+ b) +:+ c) = String d (a +:+ b +:+ c)).
  by rewrite IH.
Qed.

Lemma hasSuffix_lifecycleLabel (x : string) :
  hasSuffix (lifecycleLabel x) "-worker" = true.
Proof.
  unfold lifecycleLabel. rewrite <- append_assoc. apply hasSuffix_append.
Qed.


(** ** The lifecycle label *)



(** ** Stale lifecycle labels *)

(** C10.  Provided none of the four managed keys ends in ["-worker"] (as is
    the case for the role-label keys of package [nodelabels]), a label
    ["node-role.kubernetes.io/<x>-worker"] is never in the delete set; when
    [x] is not the resolved lifecycle class and the labels built for the
    group do not hold that key, it is not desired either, so it is not in
    the update set and the patch leaves the label on the node as it is. *)
Theorem stale_lifecycle_label_kept (c1 c2 c3 c4 x : string)
    (L : gmap string string) :
  forallb (λ m, negb (hasSuffix m "-worker")) (managedKeys c1 c2 c3 c4) = true →
  (∀ D, lifecycleLabel x ∉ deleteLabels c1 c2 c3 c4 L D) ∧
  (∀ labels lifecycle,
     x ≠ lifecycle → labels !! lifecycleLabel x = None →
     let D := withLifecycle labels lifecycle in
     D !! lifecycleLabel x = None ∧
     (lifecycleLabel x ∉ dom (updateLabels L D)) ∧
     applyPatch L (updateLabels L D) (deleteLabels c1 c2 c3 c4 L D)
       !! lifecycleLabel x = L !! lifecycleLabel x).
Proof.
  intros Hsuffix.
  assert (Hm : lifecycleLabel x ∉ managedKeys c1 c2 c3 c4).
  { intros Hin. rewrite forallb_forall in Hsuffix.
    apply list_elem_of_In, Hsuffix in Hin.
    by rewrite hasSuffix_lifecycleLabel in Hin. }
  split.
  - intros D Hin. by apply elem_of_deleteLabels in Hin as (_ & ? & _).
  - intros labels lifecycle Hx Hl D.
    assert (HD : D !! lifecycleLabel x = None).
    { unfold D, withLifecycle. case_bool_decide; [|done].
      rewrite lookup_insert_ne; [done|].
      intros Heq. apply lifecycleLabel_inj in Heq. congruence. }
    split; [done|]. split.
    + apply not_elem_of_dom. by rewrite lookup_updateLabels, HD.
    + rewrite lookup_applyPatch_diff, HD. by rewrite decide_False.
Qed.

(** ** A node that is already in order *)

Lemma diff_settled (c1 c2 c3 c4 : string) (L D : gmap string string) :
  D ⊆ L →
  (∀ k, k ∈ managedKeys c1 c2 c3 c4 → k ∈ dom L → k ∈ dom D) →
  updateLabels L D = ∅ ∧ deleteLabels c1 c2 c3 c4 L D = ∅.
Proof.
  intros Hsub Hmanaged. split.
  - apply map_eq. intros k. rewrite lookup_updateLabels, lookup_empty.
    destruct (D !! k) as [v|] eqn:HD; [|done].
    rewrite decide_True; [done|]. by eapply lookup_weaken.
  - apply elem_of_equiv_empty_L. intros k Hin.
    apply elem_of_deleteLabels in Hin as (HL & Hm & HD).
    apply not_elem_of_dom in HD. apply HD, Hmanaged; [done|].
    by apply elem_of_dom.
Qed.

(** ** Running the controller *)

Section ControllerFacts.

Context {World Path api_Cluster api_InstanceGroup ExtError : Type}.
Context `{EqDecision Path}.

Variable pkg : @Packages Path api_Cluster api_InstanceGroup ExtError.

Implicit Types r :
  @LegacyNodeReconciler World Path api_Cluster api_InstanceGroup ExtError.
Implicit Types t tr : list (@Event Path api_Cluster api_InstanceGroup ExtError).
Implicit Types w : World.
Implicit Types node : Node.
Implicit Types req : NamespacedName.

Ltac unfold_M := unfold mbind, M_bind, mret, M_ret, call, klog.

(** *** The calls each helper makes *)

Lemma loadCluster_trace r p w :
  (loadCluster pkg r p w).2 = [EvRead p time_Hour].
Proof.
  unfold loadCluster. unfold_M.
  destruct (cache r p time_Hour w) as [[b|err] w1]; simpl; [|done].
  destruct (Decode pkg b) as [[]|]; done.
Qed.

Lemma getClusterForNode_trace r node w :
  (getClusterForNode pkg r node w).2 =
    [EvRead (Join pkg (configBase r) [PathClusterCompleted pkg]) time_Hour].
Proof.
  unfold getClusterForNode. unfold_M.
  pose proof (loadCluster_trace r
    (Join pkg (configBase r) [PathClusterCompleted pkg]) w) as Ht.
  destruct (loadCluster pkg r _ w) as [[[c|e] w1] t]; simpl in *;
    by rewrite Ht.
Qed.

Lemma loadNamedInstanceGroup_trace r name w :
  (loadNamedInstanceGroup pkg r name w).2 =
    [EvRead (Join pkg (configBase r) ["instancegroup"; name]) time_Hour].
Proof.
  unfold loadNamedInstanceGroup. unfold_M.
  destruct (cache r _ time_Hour w) as [[b|err] w1]; simpl; [|done].
  destruct (Decode pkg b) as [[]|]; done.
Qed.

Lemma getInstanceLifecycle_trace r node w :
  (getInstanceLifecycle r node w).2 = [EvIdentifyNode node].
Proof.
  unfold getInstanceLifecycle. unfold_M.
  by destruct (identifier r node w) as [[i|err] w1].
Qed.

(** Group resolution for a node that carries its group label: one read of
    the manifest of that group, and no question to the identity provider. *)
Lemma getInstanceGroupForNode_labelled r node w :
  (index (Labels node) "kops.k8s.io/instancegroup").1 ≠ "" →
  getInstanceGroupForNode pkg r node w =
    loadNamedInstanceGroup pkg r
      (index (Labels node) "kops.k8s.io/instancegroup").1 w.
Proof.
  intros Hname. unfold getInstanceGroupForNode.
  by rewrite bool_decide_eq_false_2.
Qed.

(** Group resolution for a node without group label and without provider
    ID. *)
Lemma getInstanceGroupForNode_anonymous r node w :
  (index (Labels node) "kops.k8s.io/instancegroup").1 = "" →
  ProviderID node = "" →
  getInstanceGroupForNode pkg r node w =
    (Err (Errorf "node providerID not set for node %q" [OpString (Name node)]),
     w, []).
Proof.
  intros Hname Hid. unfold getInstanceGroupForNode.
  rewrite bool_decide_eq_true_2 by done.
  by rewrite bool_decide_eq_true_2 by done.
Qed.

(** Group resolution for a node without group label but with a provider
    ID: the identity provider is asked first, and exactly once. *)
Lemma getInstanceGroupForNode_fallback r node w :
  (index (Labels node) "kops.k8s.io/instancegroup").1 = "" →
  ProviderID node ≠ "" →
  ∃ rest, (getInstanceGroupForNode pkg r node w).2 = EvIdentifyNode node :: rest
          ∧ calls isIdentifyNode rest = 0%nat ∧ calls isPatch rest = 0%nat.
Proof.
  intros Hname Hid. unfold getInstanceGroupForNode.
  rewrite bool_decide_eq_true_2 by done.
  rewrite bool_decide_eq_false_2 by done.
  unfold_M.
  destruct (identifier r node w) as [[identity|err] w1]; simpl.
  - case_bool_decide; simpl; [by exists []|].
    pose proof (loadNamedInstanceGroup_trace r (InstanceGroup identity) w1) as Ht.
    destruct (loadNamedInstanceGroup pkg r _ w1) as [[x w2] t].
    simpl in *. subst t. by eexists.
  - by exists [].
Qed.

Lemma index_None (m : gmap string string) k :
  m !! k = None → (index m k).1 = "".
Proof. unfold index. by intros ->. Qed.

Lemma calls_app kind t tr :
  calls kind (t ++ tr) = (calls kind t + calls kind tr)%nat.
Proof. unfold calls. by rewrite List.filter_app, length_app. Qed.

Lemma calls_cons kind ev t :
  calls kind (ev :: t) = ((if kind ev then 1 else 0) + calls kind t)%nat.
Proof. unfold calls. simpl. by destruct (kind ev). Qed.

Lemma calls_nil kind :
  calls kind ([] : list (@Event Path api_Cluster api_InstanceGroup ExtError))
    = 0%nat.
Proof. done. Qed.

Ltac count_calls :=
  simpl;
  repeat (rewrite calls_app || rewrite calls_cons || rewrite calls_nil);
  simpl.

(** In any case group resolution asks the identity provider at most once and
    patches nothing. *)
Lemma getInstanceGroupForNode_calls r node w :
  (calls isIdentifyNode (getInstanceGroupForNode pkg r node w).2 ≤ 1)%nat ∧
  calls isPatch (getInstanceGroupForNode pkg r node w).2 = 0%nat.
Proof.
  destruct (decide ((index (Labels node) "kops.k8s.io/instancegroup").1 = ""))
    as [Hname|Hname].
  - destruct (decide (ProviderID node = "")) as [Hid|Hid].
    + rewrite getInstanceGroupForNode_anonymous by done.
      unfold calls. simpl. split; [lia|done].
    + destruct (getInstanceGroupForNode_fallback r node w Hname Hid)
        as (rest & -> & Hi & Hp).
      rewrite !calls_cons, Hi, Hp. simpl. split; [lia|done].
  - rewrite getInstanceGroupForNode_labelled by done.
    rewrite loadNamedInstanceGroup_trace. unfold calls. simpl.
    split; [lia|done].
Qed.

(** *** The returns of [Reconcile], one by one *)

(** Line 92-101: the fetch failed. *)
Lemma Reconcile_fetch_failed r req w node err w1 :
  client r req w = ((node, Some err), w1) →
  Reconcile pkg r req w =
    ((Result0, if IsNotFound pkg err then None else Some err), w1,
     [EvGet req;
      EvLog Warning "unable to fetch node %s: %v"
        [OpString (Name node); OpError err]]).
Proof.
  intros Hget. unfold Reconcile. unfold_M. rewrite Hget. simpl.
  by destruct (IsNotFound pkg err).
Qed.

(** Lines 103-106: the cluster manifest could not be loaded. *)
Lemma Reconcile_cluster_failed r req w node w1 err w2 tr2 :
  client r req w = ((node, None), w1) →
  getClusterForNode pkg r node w1 = (Err err, w2, tr2) →
  Reconcile pkg r req w =
    ((Result0,
      Some (Errorf "unable to load cluster object for node %s: %v"
              [OpString (Name node); OpError err])),
     w2, EvGet req :: tr2).
Proof.
  intros Hget Hcl. unfold Reconcile. unfold_M. rewrite Hget. simpl.
  rewrite Hcl. simpl. by rewrite app_nil_r.
Qed.

(** Lines 108-111: the instance group could not be resolved or loaded. *)
Lemma Reconcile_group_failed r req w node w1 cluster w2 tr2 err w3 tr3 :
  client r req w = ((node, None), w1) →
  getClusterForNode pkg r node w1 = (Ok cluster, w2, tr2) →
  getInstanceGroupForNode pkg r node w2 = (Err err, w3, tr3) →
  Reconcile pkg r req w =
    ((Result0,
      Some (Errorf "unable to load instance group object for node %s: %v"
              [OpString (Name node); OpError err])),
     w3, EvGet req :: tr2 ++ tr3).
Proof.
  intros Hget Hcl Hig. unfold Reconcile. unfold_M. rewrite Hget. simpl.
  rewrite Hcl. simpl. rewrite Hig. simpl. by rewrite app_nil_r.
Qed.

(** Lines 113-116: the labels could not be built. *)
Lemma Reconcile_labels_failed r req w node w1 cluster w2 tr2 ig w3 tr3 err :
  client r req w = ((node, None), w1) →
  getClusterForNode pkg r node w1 = (Ok cluster, w2, tr2) →
  getInstanceGroupForNode pkg r node w2 = (Ok ig, w3, tr3) →
  BuildNodeLabels pkg cluster ig = Err err →
  Reconcile pkg r req w =
    ((Result0,
      Some (Errorf "error building node labels for node %q: %w"
              [OpString (Name node); OpError err])),
     w3, EvGet req :: tr2 ++ tr3).
Proof.
  intros Hget Hcl Hig Hl. unfold Reconcile. unfold_M. rewrite Hget. simpl.
  rewrite Hcl. simpl. rewrite Hig. simpl. rewrite Hl. simpl.
  by rewrite app_nil_r.
Qed.

(** Lines 118-121: from the lifecycle step on, when the lookup fails. *)
Lemma Reconcile_lifecycle_failed r req w node labels w3 tr err w4 tr4 :
  reachesLifecycle pkg r req w node labels w3 tr →
  getInstanceLifecycle r node w3 = (Err err, w4, tr4) →
  Reconcile pkg r req w =
    ((Result0,
      Some (Errorf "unable to get instance lifecycle %s: %v"
              [OpString (Name node); OpError err])),
     w4, tr ++ tr4).
Proof.
  intros (w1 & cluster & w2 & tr2 & ig & tr3 & Hget & Hcl & Hig & Hl & ->) Hlc.
  unfold Reconcile. unfold_M. rewrite Hget. simpl.
  rewrite Hcl. simpl. rewrite Hig. simpl. rewrite Hl. simpl.
  rewrite Hlc. simpl. by rewrite app_nil_r, <- app_assoc.
Qed.

(** Lines 123-157: from the diff on. *)
Lemma Reconcile_resolved r req w node labels lifecycle w4 tr :
  resolvesLabels pkg r req w node labels lifecycle w4 tr →
  Reconcile pkg r req w =
    after tr (diffAndPatch pkg r node (withLifecycle labels lifecycle) w4).
Proof.
  intros (w3 & tr3' & tr4 & Hreach & Hlc & ->).
  destruct Hreach
    as (w1 & cluster & w2 & tr2 & ig & tr3 & Hget & Hcl & Hig & Hl & ->).
  unfold Reconcile, diffAndPatch, after. unfold_M. rewrite Hget. simpl.
  rewrite Hcl. simpl. rewrite Hig. simpl. rewrite Hl. simpl.
  rewrite Hlc. simpl.
  destruct (noChanges _ _); simpl.
  - by rewrite <- !app_assoc.
  - unfold patchNodeLabels, call.
    destruct (coreV1Client r node _ _ w4) as [[err|] w5]; simpl;
      by rewrite <- !app_assoc.
Qed.

(** The diff and the patch ask the identity provider nothing and read no
    manifest. *)
Lemma diffAndPatch_calls r node labels w :
  calls isIdentifyNode (diffAndPatch pkg r node labels w).2 = 0%nat ∧
  calls isRead (diffAndPatch pkg r node labels w).2 = 0%nat.
Proof.
  unfold diffAndPatch, patchNodeLabels. unfold_M.
  destruct (noChanges _ _); simpl; [done|].
  by destruct (coreV1Client r node _ _ w) as [[err|] w5].
Qed.

Lemma after_trace {A} tr
    (x : A * World * list (@Event Path api_Cluster api_InstanceGroup ExtError)) :
  (after tr x).2 = tr ++ x.2.
Proof. by destruct x as [[a w] t]. Qed.

(** The calls made before the lifecycle step: the fetch, the read of the
    cluster manifest, and what group resolution did. *)
Lemma reachesLifecycle_trace r req w node labels w3 tr :
  reachesLifecycle pkg r req w node labels w3 tr →
  ∃ w2, tr = EvGet req
             :: EvRead (Join pkg (configBase r) [PathClusterCompleted pkg])
                  time_Hour
             :: (getInstanceGroupForNode pkg r node w2).2.
Proof.
  intros (w1 & cluster & w2 & tr2 & ig & tr3 & Hget & Hcl & Hig & Hl & ->).
  exists w2. pose proof (getClusterForNode_trace r node w1) as H2.
  rewrite Hcl in H2. simpl in H2. subst tr2. by rewrite Hig.
Qed.

Lemma reachesLifecycle_calls r req w node labels w3 tr :
  reachesLifecycle pkg r req w node labels w3 tr →
  (calls isIdentifyNode tr ≤ 1)%nat ∧ calls isPatch tr = 0%nat.
Proof.
  intros Hreach. apply reachesLifecycle_trace in Hreach as [w2 ->].
  count_calls.
  by destruct (getInstanceGroupForNode_calls r node w2).
Qed.


(** A pass never asks the identity provider more than twice. *)
Lemma Reconcile_identify_bound r req w :
  (calls isIdentifyNode (Reconcile pkg r req w).2 ≤ 2)%nat.
Proof.
  destruct (client r req w) as [[node [err|]] w1] eqn:Hget.
  { rewrite (Reconcile_fetch_failed _ _ _ _ _ _ Hget). count_calls. lia. }
  pose proof (getClusterForNode_trace r node w1) as H2.
  destruct (getClusterForNode pkg r node w1) as [[[cluster|err] w2] tr2] eqn:Hcl;
    simpl in H2; subst tr2.
  2: { rewrite (Reconcile_cluster_failed _ _ _ _ _ _ _ _ Hget Hcl).
       count_calls. lia. }
  destruct (getInstanceGroupForNode_calls r node w2) as [Hi3 Hp3].
  destruct (getInstanceGroupForNode pkg r node w2) as [[[ig|err] w3] tr3] eqn:Hig;
    simpl in Hi3, Hp3.
  2: { rewrite (Reconcile_group_failed _ _ _ _ _ _ _ _ _ _ _ Hget Hcl Hig).
       count_calls. lia. }
  destruct (BuildNodeLabels pkg cluster ig) as [labels|err] eqn:Hl.
  2: { rewrite (Reconcile_labels_failed _ _ _ _ _ _ _ _ _ _ _ _ Hget Hcl Hig Hl).
       count_calls. lia. }
  assert (Hreach : reachesLifecycle pkg r req w node labels w3
                     (EvGet req :: [EvRead (Join pkg (configBase r)
                        [PathClusterCompleted pkg]) time_Hour] ++ tr3)).
  { do 6 eexists. repeat split; eassumption || reflexivity. }
  pose proof (getInstanceLifecycle_trace r node w3) as H4.
  destruct (getInstanceLifecycle r node w3) as [[[lifecycle|err] w4] tr4] eqn:Hlc;
    simpl in H4; subst tr4.
  2: { rewrite (Reconcile_lifecycle_failed _ _ _ _ _ _ _ _ _ _ Hreach Hlc).
       count_calls. lia. }
  rewrite (Reconcile_resolved r req w node labels lifecycle w4
             ((EvGet req :: [EvRead (Join pkg (configBase r)
                  [PathClusterCompleted pkg]) time_Hour] ++ tr3)
              ++ [EvIdentifyNode node])).
  2: { do 3 eexists. repeat split; eassumption || reflexivity. }
  rewrite after_trace, !calls_app.
  destruct (diffAndPatch_calls r node (withLifecycle labels lifecycle) w4)
    as [-> _].
  count_calls. lia.
Qed.

(** Once group resolution has settled on a name, what is left of it is the
    load of the manifest of that name. *)
Lemma getInstanceGroupForNode_named r node w name w' tr :
  resolvesGroupName r node w name w' tr →
  getInstanceGroupForNode pkg r node w =
    after tr (loadNamedInstanceGroup pkg r name w').
Proof.
  intros [Hne [(Hl & -> & ->)|(Hl & Hid & identity & Hi & <- & ->)]].
  - rewrite getInstanceGroupForNode_labelled; unfold index; rewrite Hl; simpl.
    + by destruct (loadNamedInstanceGroup pkg r name w) as [[x w2] t].
    + done.
  - unfold getInstanceGroupForNode.
    rewrite bool_decide_eq_true_2 by done.
    rewrite bool_decide_eq_false_2 by done.
    unfold_M. rewrite Hi. simpl.
    rewrite bool_decide_eq_false_2 by done.
    by destruct (loadNamedInstanceGroup pkg r _ w') as [[x w2] t].
Qed.


(** *** The claims about a pass *)


(** C4.  When the fetch of the node fails with a not-found error, the pass
    ends with success and no error; beyond the fetch and one log line it
    does nothing: no manifest is read, the identity provider is not asked,
    nothing is patched. *)
Theorem not_found_is_success r req w node err w1 :
  client r req w = ((node, Some err), w1) →
  IsNotFound pkg err = true →
  Reconcile pkg r req w =
    ((Result0, None), w1,
     [EvGet req;
      EvLog Warning "unable to fetch node %s: %v"
        [OpString (Name node); OpError err]]) ∧
  calls isRead (Reconcile pkg r req w).2 = 0%nat ∧
  calls isIdentifyNode (Reconcile pkg r req w).2 = 0%nat ∧
  calls isPatch (Reconcile pkg r req w).2 = 0%nat.
Proof.
  intros Hget Hnf.
  rewrite (Reconcile_fetch_failed _ _ _ _ _ _ Hget), Hnf. done.
Qed.

(** C5, as the code has it.  For a node without group label but with a
    provider ID, group resolution asks the identity provider exactly once;
    the lifecycle step asks it a second time, so a pass that reaches that
    step asks exactly twice, and no pass asks more than twice. *)
Theorem provider_asked_once_per_step r node :
  Labels node !! "kops.k8s.io/instancegroup" = None →
  ProviderID node ≠ "" →
  (∀ w, calls isIdentifyNode (getInstanceGroupForNode pkg r node w).2 = 1%nat) ∧
  (∀ req w labels w3 tr,
     reachesLifecycle pkg r req w node labels w3 tr →
     calls isIdentifyNode (Reconcile pkg r req w).2 = 2%nat) ∧
  (∀ req w, (calls isIdentifyNode (Reconcile pkg r req w).2 ≤ 2)%nat).
Proof.
  intros Hlabel%index_None Hid.
  assert (Hgroup : ∀ w,
    calls isIdentifyNode (getInstanceGroupForNode pkg r node w).2 = 1%nat).
  { intros w.
    destruct (getInstanceGroupForNode_fallback r node w Hlabel Hid)
      as (rest & -> & Hi & _).
    count_calls. by rewrite Hi. }
  split; [done|]. split; [|intros; apply Reconcile_identify_bound].
  intros req w labels w3 tr Hreach.
  destruct (reachesLifecycle_trace _ _ _ _ _ _ _ Hreach) as [w2 Htr].
  pose proof (getInstanceLifecycle_trace r node w3) as H4.
  destruct (getInstanceLifecycle r node w3) as [[[lifecycle|err] w4] tr4] eqn:Hlc;
    simpl in H4; subst tr4.
  - rewrite (Reconcile_resolved r req w node labels lifecycle w4
               (tr ++ [EvIdentifyNode node])).
    2: { do 3 eexists. repeat split; eassumption || reflexivity. }
    rewrite after_trace, Htr.
    destruct (diffAndPatch_calls r node (withLifecycle labels lifecycle) w4)
      as [Hd _].
    count_calls. rewrite Hd, Hgroup. done.
  - rewrite (Reconcile_lifecycle_failed _ _ _ _ _ _ _ _ _ _ Hreach Hlc), Htr.
    count_calls. rewrite Hgroup. done.
Qed.

(** C6.  For a node without group label and without provider ID, group
    resolution fails with the validation error and makes no call at all; a
    pass that has fetched such a node reports that error as soon as the
    cluster manifest is loaded, and whatever happens it never asks the
    identity provider, never patches and ends with an error. *)
Theorem anonymous_node_rejected r node :
  Labels node !! "kops.k8s.io/instancegroup" = None →
  ProviderID node = "" →
  (∀ w, getInstanceGroupForNode pkg r node w =
          (Err (Errorf "node providerID not set for node %q"
                  [OpString (Name node)]), w, [])) ∧
  (∀ req w w1 cluster w2 tr2,
     client r req w = ((node, None), w1) →
     getClusterForNode pkg r node w1 = (Ok cluster, w2, tr2) →
     Reconcile pkg r req w =
       ((Result0,
         Some (Errorf "unable to load instance group object for node %s: %v"
                 [OpString (Name node);
                  OpError (Errorf "node providerID not set for node %q"
                             [OpString (Name node)])])),
        w2, EvGet req :: tr2)) ∧
  (∀ req w w1,
     client r req w = ((node, None), w1) →
     calls isIdentifyNode (Reconcile pkg r req w).2 = 0%nat ∧
     calls isPatch (Reconcile pkg r req w).2 = 0%nat ∧
     is_Some (Reconcile pkg r req w).1.1.2).
Proof.
  intros Hlabel%index_None Hid.
  assert (Hpass : ∀ req w w1 cluster w2 tr2,
     client r req w = ((node, None), w1) →
     getClusterForNode pkg r node w1 = (Ok cluster, w2, tr2) →
     Reconcile pkg r req w =
       ((Result0,
         Some (Errorf "unable to load instance group object for node %s: %v"
                 [OpString (Name node);
                  OpError (Errorf "node providerID not set for node %q"
                             [OpString (Name node)])])),
        w2, EvGet req :: tr2)).
  { intros req w w1 cluster w2 tr2 Hget Hcl.
    rewrite (Reconcile_group_failed _ _ _ _ _ _ _ _ _ _ _ Hget Hcl
               (getInstanceGroupForNode_anonymous r node w2 Hlabel Hid)).
    by rewrite app_nil_r. }
  split; [intros w; by apply getInstanceGroupForNode_anonymous|].
  split; [done|].
  intros req w w1 Hget.
  pose proof (getClusterForNode_trace r node w1) as H2.
  destruct (getClusterForNode pkg r node w1) as [[[cluster|err] w2] tr2] eqn:Hcl;
    simpl in H2; subst tr2.
  - rewrite (Hpass _ _ _ _ _ _ Hget Hcl). by count_calls.
  - rewrite (Reconcile_cluster_failed _ _ _ _ _ _ _ _ Hget Hcl). by count_calls.
Qed.




Lemma resolvesGroupName_calls r node w name w' tr :
  resolvesGroupName r node w name w' tr → calls isPatch tr = 0%nat.
Proof. by intros [_ [(_ & _ & ->)|(_ & _ & _ & _ & _ & ->)]]. Qed.


(** C9.  A pass that reaches the lifecycle step asks the identity provider
    there, whatever the node; when that lookup fails the pass ends with the
    error, wrapped twice, and nothing is patched.  This also holds for a
    node that carries its group label, for which nothing before that step
    has asked the identity provider. *)
Theorem lifecycle_lookup_always r req w node labels w3 tr :
  reachesLifecycle pkg r req w node labels w3 tr →
  (∃ rest, (Reconcile pkg r req w).2 = tr ++ EvIdentifyNode node :: rest) ∧
  (∀ err w4,
     identifier r node w3 = (Err err, w4) →
     Reconcile pkg r req w =
       ((Result0,
         Some (Errorf "unable to get instance lifecycle %s: %v"
                 [OpString (Name node);
                  OpError (Errorf "error identifying node %q: %v"
                             [OpString (Name node); OpError err])])),
        w4, tr ++ [EvIdentifyNode node]) ∧
     calls isPatch (Reconcile pkg r req w).2 = 0%nat) ∧
  (∀ name,
     Labels node !! "kops.k8s.io/instancegroup" = Some name → name ≠ "" →
     calls isIdentifyNode tr = 0%nat).
Proof.
  intros Hreach. split; [|split].
  - pose proof (getInstanceLifecycle_trace r node w3) as H4.
    destruct (getInstanceLifecycle r node w3)
      as [[[lifecycle|err] w4] tr4] eqn:Hlc; simpl in H4; subst tr4.
    + rewrite (Reconcile_resolved r req w node labels lifecycle w4
                 (tr ++ [EvIdentifyNode node])).
      2: { do 3 eexists. repeat split; eassumption || reflexivity. }
      rewrite after_trace, <- app_assoc. by eexists.
    + rewrite (Reconcile_lifecycle_failed _ _ _ _ _ _ _ _ _ _ Hreach Hlc).
      by exists [].
  - intros err w4 Hid.
    assert (Hrun : Reconcile pkg r req w =
       ((Result0,
         Some (Errorf "unable to get instance lifecycle %s: %v"
                 [OpString (Name node);
                  OpError (Errorf "error identifying node %q: %v"
                             [OpString (Name node); OpError err])])),
        w4, tr ++ [EvIdentifyNode node])).
    { eapply Reconcile_lifecycle_failed; [done|].
      unfold getInstanceLifecycle. unfold_M. by rewrite Hid. }
    split; [done|]. rewrite Hrun.
    apply reachesLifecycle_calls in Hreach as [_ Hp].
    count_calls. by rewrite Hp.
  - intros name Hlabel Hne.
    apply reachesLifecycle_trace in Hreach as [w2 ->].
    rewrite getInstanceGroupForNode_labelled.
    + rewrite loadNamedInstanceGroup_trace. by count_calls.
    + unfold index. by rewrite Hlabel.
Qed.

End ControllerFacts.

(** ** Every pass, whatever the world does *)

Section PassFacts.

Context {World Path api_Cluster api_InstanceGroup ExtError : Type}.

Variable pkg : @Packages Path api_Cluster api_InstanceGroup ExtError.

Implicit Types r :
  @LegacyNodeReconciler World Path api_Cluster api_InstanceGroup ExtError.
Implicit Types t tr gt :
  list (@Event Path api_Cluster api_InstanceGroup ExtError).
Implicit Types ev : @Event Path api_Cluster api_InstanceGroup ExtError.

Abbreviation clusterPathOf r :=
  (Join pkg (configBase r) [PathClusterCompleted pkg]).
Abbreviation groupPathOf r name :=
  (Join pkg (configBase r) ["instancegroup"; name]).
Abbreviation managedOf :=
  (managedKeys (RoleLabelMaster16 pkg) (RoleLabelAPIServer16 pkg)
     (RoleLabelNode16 pkg) (RoleLabelControlPlane20 pkg)).
Abbreviation deleteOf :=
  (deleteLabels (RoleLabelMaster16 pkg) (RoleLabelAPIServer16 pkg)
     (RoleLabelNode16 pkg) (RoleLabelControlPlane20 pkg)).

Ltac unfold_M := unfold mbind, M_bind, mret, M_ret, call, klog.

Ltac count_calls :=
  simpl;
  repeat (rewrite calls_app || rewrite calls_cons || rewrite calls_nil);
  simpl.

(** *** Group resolution *)

(** The calls of group resolution: at most one question to the identity
    provider, then at most one read, of the manifest of a group whose name
    is not empty; a resolution that succeeds has made that read. *)
Lemma getInstanceGroupForNode_shape r node w :
  ∃ ids reads,
    (getInstanceGroupForNode pkg r node w).2 = ids ++ reads ∧
    (ids = [] ∨ ids = [EvIdentifyNode node]) ∧
    (reads = [] ∨
     ∃ name, name ≠ "" ∧ reads = [EvRead (groupPathOf r name) time_Hour]) ∧
    (∀ ig, (getInstanceGroupForNode pkg r node w).1.1 = Ok ig → reads ≠ []).
Proof.
  destruct (decide ((index (Labels node) "kops.k8s.io/instancegroup").1 = ""))
    as [Hname|Hname].
  - destruct (decide (ProviderID node = "")) as [Hid|Hid].
    { rewrite getInstanceGroupForNode_anonymous by done.
      exists [], []. repeat split; auto; try (intros ig Hok; discriminate Hok). }
    unfold getInstanceGroupForNode.
    rewrite bool_decide_eq_true_2 by done.
    rewrite bool_decide_eq_false_2 by done.
    unfold_M.
    destruct (identifier r node w) as [[identity|err] w1]; simpl.
    + case_bool_decide as Hg; simpl.
      { exists [EvIdentifyNode node], [].
        repeat split; auto; try (intros ig Hok; discriminate Hok). }
      pose proof (loadNamedInstanceGroup_trace pkg r (InstanceGroup identity) w1)
        as Ht.
      destruct (loadNamedInstanceGroup pkg r _ w1) as [[x w2] t].
      simpl in *. subst t.
      exists [EvIdentifyNode node],
        [EvRead (groupPathOf r (InstanceGroup identity)) time_Hour].
      repeat split; eauto.
    + exists [EvIdentifyNode node], [].
      repeat split; auto; try (intros ig Hok; discriminate Hok).
  - rewrite getInstanceGroupForNode_labelled by done.
    rewrite loadNamedInstanceGroup_trace.
    exists [], [EvRead (groupPathOf r
                  (index (Labels node) "kops.k8s.io/instancegroup").1)
                  time_Hour].
    repeat split; eauto.
Qed.

(** The same, as counts and as the list of what can occur. *)
Lemma getInstanceGroupForNode_budget r node w :
  (calls isRead (getInstanceGroupForNode pkg r node w).2 ≤ 1)%nat ∧
  (calls isIdentifyNode (getInstanceGroupForNode pkg r node w).2 ≤ 1)%nat ∧
  calls isPatch (getInstanceGroupForNode pkg r node w).2 = 0%nat ∧
  (∀ ig, (getInstanceGroupForNode pkg r node w).1.1 = Ok ig →
         calls isRead (getInstanceGroupForNode pkg r node w).2 = 1%nat) ∧
  (∀ ev, ev ∈ (getInstanceGroupForNode pkg r node w).2 →
         ev = EvIdentifyNode node ∨
         ∃ name, name ≠ "" ∧ ev = EvRead (groupPathOf r name) time_Hour).
Proof.
  destruct (getInstanceGroupForNode_shape r node w)
    as (ids & reads & -> & Hids & Hreads & Hok).
  assert (Hr : ∀ ig, (getInstanceGroupForNode pkg r node w).1.1 = Ok ig →
                     calls isRead (ids ++ reads) = 1%nat).
  { intros ig Hig. specialize (Hok ig Hig).
    destruct Hreads as [->|(name & _ & ->)]; [done|].
    destruct Hids as [->| ->]; by count_calls. }
  repeat split; try done.
  - destruct Hids as [->| ->], Hreads as [->|(name & _ & ->)];
      count_calls; lia.
  - destruct Hids as [->| ->], Hreads as [->|(name & _ & ->)];
      count_calls; lia.
  - by destruct Hids as [->| ->], Hreads as [->|(name & _ & ->)].
  - intros ev [Hev|Hev]%elem_of_app.
    + destruct Hids as [->| ->]; [by apply elem_of_nil in Hev|].
      apply list_elem_of_singleton in Hev. by left.
    + destruct Hreads as [->|(name & Hne & ->)];
        [by apply elem_of_nil in Hev|].
      apply list_elem_of_singleton in Hev. right. by exists name.
Qed.

(** *** How a pass can end *)

(** The six ways through [Reconcile], each with what it returns. *)
Lemma Reconcile_cases r req w :
  (∃ node err w1,
     client r req w = ((node, Some err), w1) ∧
     Reconcile pkg r req w =
       ((Result0, if IsNotFound pkg err then None else Some err), w1,
        [EvGet req;
         EvLog Warning "unable to fetch node %s: %v"
           [OpString (Name node); OpError err]])) ∨
  (∃ node w1 err w2,
     client r req w = ((node, None), w1) ∧
     getClusterForNode pkg r node w1 =
       (Err err, w2, [EvRead (clusterPathOf r) time_Hour]) ∧
     Reconcile pkg r req w =
       ((Result0,
         Some (Errorf "unable to load cluster object for node %s: %v"
                 [OpString (Name node); OpError err])),
        w2, [EvGet req; EvRead (clusterPathOf r) time_Hour])) ∨
  (∃ node w1 cluster w2 err w3 tr3,
     client r req w = ((node, None), w1) ∧
     getClusterForNode pkg r node w1 =
       (Ok cluster, w2, [EvRead (clusterPathOf r) time_Hour]) ∧
     getInstanceGroupForNode pkg r node w2 = (Err err, w3, tr3) ∧
     Reconcile pkg r req w =
       ((Result0,
         Some (Errorf "unable to load instance group object for node %s: %v"
                 [OpString (Name node); OpError err])),
        w3, EvGet req :: EvRead (clusterPathOf r) time_Hour :: tr3)) ∨
  (∃ node w1 cluster w2 ig w3 tr3 err,
     client r req w = ((node, None), w1) ∧
     getClusterForNode pkg r node w1 =
       (Ok cluster, w2, [EvRead (clusterPathOf r) time_Hour]) ∧
     getInstanceGroupForNode pkg r node w2 = (Ok ig, w3, tr3) ∧
     BuildNodeLabels pkg cluster ig = Err err ∧
     Reconcile pkg r req w =
       ((Result0,
         Some (Errorf "error building node labels for node %q: %w"
                 [OpString (Name node); OpError err])),
        w3, EvGet req :: EvRead (clusterPathOf r) time_Hour :: tr3)) ∨
  (∃ node labels w3 tr err w4,
     reachesLifecycle pkg r req w node labels w3 tr ∧
     getInstanceLifecycle r node w3 = (Err err, w4, [EvIdentifyNode node]) ∧
     Reconcile pkg r req w =
       ((Result0,
         Some (Errorf "unable to get instance lifecycle %s: %v"
                 [OpString (Name node); OpError err])),
        w4, tr ++ [EvIdentifyNode node])) ∨
  (∃ node labels lifecycle w4 tr,
     resolvesLabels pkg r req w node labels lifecycle w4 tr ∧
     Reconcile pkg r req w =
       after tr (diffAndPatch pkg r node (withLifecycle labels lifecycle) w4)).
Proof.
  destruct (client r req w) as [[node [err|]] w1] eqn:Hget.
  { left. exists node, err, w1. split; [done|].
    by apply Reconcile_fetch_failed. }
  right.
  pose proof (getClusterForNode_trace pkg r node w1) as H2.
  destruct (getClusterForNode pkg r node w1) as [[[cluster|err] w2] tr2] eqn:Hcl;
    simpl in H2; subst tr2.
  2: { left. exists node, w1, err, w2. split; [done|]. split; [done|].
       by eapply Reconcile_cluster_failed. }
  right.
  destruct (getInstanceGroupForNode pkg r node w2) as [[[ig|err] w3] tr3] eqn:Hig.
  2: { left. exists node, w1, cluster, w2, err, w3, tr3.
       do 3 (split; [done|]).
       by rewrite (Reconcile_group_failed pkg _ _ _ _ _ _ _ _ _ _ _ Hget Hcl Hig). }
  right.
  destruct (BuildNodeLabels pkg cluster ig) as [labels|err] eqn:Hl.
  2: { left. exists node, w1, cluster, w2, ig, w3, tr3, err.
       do 4 (split; [done|]).
       by rewrite (Reconcile_labels_failed pkg _ _ _ _ _ _ _ _ _ _ _ _
                     Hget Hcl Hig Hl). }
  right.
  assert (Hreach : reachesLifecycle pkg r req w node labels w3
                     (EvGet req :: [EvRead (clusterPathOf r) time_Hour] ++ tr3)).
  { do 6 eexists. repeat split; eassumption || reflexivity. }
  pose proof (getInstanceLifecycle_trace r node w3) as H4.
  destruct (getInstanceLifecycle r node w3) as [[[lifecycle|err] w4] tr4] eqn:Hlc;
    simpl in H4; subst tr4.
  2: { left. do 6 eexists.
       split; [exact Hreach|]. split; [exact Hlc|].
       eapply Reconcile_lifecycle_failed; [exact Hreach|exact Hlc]. }
  right.
  assert (Hres : resolvesLabels pkg r req w node labels lifecycle w4
            ((EvGet req :: [EvRead (clusterPathOf r) time_Hour] ++ tr3)
             ++ [EvIdentifyNode node])).
  { do 3 eexists. repeat split; eassumption || reflexivity. }
  do 5 eexists. split; [exact Hres|]. by apply Reconcile_resolved.
Qed.

(** What the diff and the patch return and call. *)
Lemma diffAndPatch_cases r node D w :
  let upd := updateLabels (Labels node) D in
  let del := deleteOf (Labels node) D in
  (noChanges upd del = true ∧
   diffAndPatch pkg r node D w =
     ((Result0, None), w,
      [EvLog (InfoV 4) "no label changes needed for %s"
         [OpString (Name node)]])) ∨
  (noChanges upd del = false ∧
   ∃ err w',
     coreV1Client r node upd del w = (err, w') ∧
     diffAndPatch pkg r node D w =
       ((Result0, err), w',
        EvPatch node upd del ::
        match err with
        | Some e => [EvLog Warning "failed to patch node labels on %s: %v"
                       [OpString (Name node); OpError e]]
        | None => []
        end)).
Proof.
  intros upd del. unfold diffAndPatch, patchNodeLabels. fold upd. fold del.
  destruct (noChanges upd del); [by left|right]. split; [done|].
  unfold_M.
  destruct (coreV1Client r node upd del w) as [[e|] w'] eqn:Hp; simpl;
    by eexists _, _.
Qed.

(** What has been called when the lifecycle step is reached. *)
Lemma reachesLifecycle_budget r req w node labels w3 tr :
  reachesLifecycle pkg r req w node labels w3 tr →
  ∃ gt, tr = EvGet req :: EvRead (clusterPathOf r) time_Hour :: gt ∧
        calls isRead gt = 1%nat ∧
        (calls isIdentifyNode gt ≤ 1)%nat ∧
        calls isPatch gt = 0%nat ∧
        (∀ ev, ev ∈ gt →
           ev = EvIdentifyNode node ∨
           ∃ name, name ≠ "" ∧ ev = EvRead (groupPathOf r name) time_Hour).
Proof.
  intros (w1 & cluster & w2 & tr2 & ig & tr3 & Hget & Hcl & Hig & Hl & ->).
  pose proof (getClusterForNode_trace pkg r node w1) as H2.
  rewrite Hcl in H2. simpl in H2. subst tr2.
  destruct (getInstanceGroupForNode_budget r node w2)
    as (_ & Hi & Hp & Hone & Hev).
  rewrite Hig in Hi, Hp, Hone, Hev. simpl in *.
  exists tr3. repeat split; eauto.
Qed.

(** *** Failures on the way to the diff *)

(** X1.  A fetch error that is not a not-found error is handed back as it
    is, unwrapped, after one warning; the pass reads no manifest, does not
    ask the identity provider and patches nothing. *)
Theorem fetch_error_returned_as_is r req w node err w1 :
  client r req w = ((node, Some err), w1) →
  IsNotFound pkg err = false →
  Reconcile pkg r req w =
    ((Result0, Some err), w1,
     [EvGet req;
      EvLog Warning "unable to fetch node %s: %v"
        [OpString (Name node); OpError err]]) ∧
  calls isRead (Reconcile pkg r req w).2 = 0%nat ∧
  calls isIdentifyNode (Reconcile pkg r req w).2 = 0%nat ∧
  calls isPatch (Reconcile pkg r req w).2 = 0%nat.
Proof.
  intros Hget Hnf.
  rewrite (Reconcile_fetch_failed pkg _ _ _ _ _ _ Hget), Hnf. done.
Qed.

(** X2.  When the read of the cluster manifest fails, the pass ends with
    that error wrapped with the path and then with the node name; group
    resolution is not started, so the identity provider is not asked, and
    nothing is patched. *)
Theorem cluster_read_failure_reported r req w node w1 err w2 :
  client r req w = ((node, None), w1) →
  cache r (clusterPathOf r) time_Hour w1 = (Err err, w2) →
  Reconcile pkg r req w =
    ((Result0,
      Some (Errorf "unable to load cluster object for node %s: %v"
              [OpString (Name node);
               OpError (Errorf "error loading Cluster %q: %v"
                          [OpPath (clusterPathOf r); OpError err])])),
     w2, [EvGet req; EvRead (clusterPathOf r) time_Hour]) ∧
  calls isIdentifyNode (Reconcile pkg r req w).2 = 0%nat ∧
  calls isPatch (Reconcile pkg r req w).2 = 0%nat.
Proof.
  intros Hget Hread.
  assert (Hrun : Reconcile pkg r req w =
    ((Result0,
      Some (Errorf "unable to load cluster object for node %s: %v"
              [OpString (Name node);
               OpError (Errorf "error loading Cluster %q: %v"
                          [OpPath (clusterPathOf r); OpError err])])),
     w2, [EvGet req; EvRead (clusterPathOf r) time_Hour])).
  { eapply Reconcile_cluster_failed; [done|].
    unfold getClusterForNode, loadCluster. unfold_M. by rewrite Hread. }
  split; [done|]. by rewrite Hrun.
Qed.

(** X3.  When the read of the group manifest fails, the pass ends with that
    error wrapped with the path and then with the node name; the lifecycle
    step is not reached and nothing is patched. *)
Theorem group_read_failure_reported
    r req w node w1 cluster w2 tr2 name w2' trn err w3 :
  client r req w = ((node, None), w1) →
  getClusterForNode pkg r node w1 = (Ok cluster, w2, tr2) →
  resolvesGroupName r node w2 name w2' trn →
  cache r (groupPathOf r name) time_Hour w2' = (Err err, w3) →
  Reconcile pkg r req w =
    ((Result0,
      Some (Errorf "unable to load instance group object for node %s: %v"
              [OpString (Name node);
               OpError (Errorf "error loading InstanceGroup %q: %v"
                          [OpPath (groupPathOf r name); OpError err])])),
     w3, EvGet req :: tr2 ++ trn ++ [EvRead (groupPathOf r name) time_Hour]) ∧
  calls isIdentifyNode (Reconcile pkg r req w).2 = calls isIdentifyNode trn ∧
  calls isPatch (Reconcile pkg r req w).2 = 0%nat.
Proof.
  intros Hget Hcl Hname Hread.
  assert (Hrun : Reconcile pkg r req w =
    ((Result0,
      Some (Errorf "unable to load instance group object for node %s: %v"
              [OpString (Name node);
               OpError (Errorf "error loading InstanceGroup %q: %v"
                          [OpPath (groupPathOf r name); OpError err])])),
     w3, EvGet req :: tr2 ++ trn ++ [EvRead (groupPathOf r name) time_Hour])).
  { eapply Reconcile_group_failed; [done..|].
    rewrite (getInstanceGroupForNode_named pkg _ _ _ _ _ _ Hname).
    unfold loadNamedInstanceGroup. unfold_M. by rewrite Hread. }
  split; [done|]. rewrite Hrun.
  pose proof (getClusterForNode_trace pkg r node w1) as H2.
  rewrite Hcl in H2. simpl in H2. subst tr2.
  count_calls.
  rewrite (resolvesGroupName_calls _ _ _ _ _ _ Hname). split; lia.
Qed.

(** X4.  For a node that has to be identified (no group label, or an empty
    one, and a provider ID), a failure of the identity provider ends the
    pass with that error wrapped twice with the node name; no group
    manifest is read and nothing is patched. *)
Theorem provider_failure_reported r req w node w1 cluster w2 tr2 err w3 :
  client r req w = ((node, None), w1) →
  getClusterForNode pkg r node w1 = (Ok cluster, w2, tr2) →
  (index (Labels node) "kops.k8s.io/instancegroup").1 = "" →
  ProviderID node ≠ "" →
  identifier r node w2 = (Err err, w3) →
  Reconcile pkg r req w =
    ((Result0,
      Some (Errorf "unable to load instance group object for node %s: %v"
              [OpString (Name node);
               OpError (Errorf "error identifying node %q: %v"
                          [OpString (Name node); OpError err])])),
     w3, EvGet req :: tr2 ++ [EvIdentifyNode node]) ∧
  calls isRead (Reconcile pkg r req w).2 = 1%nat ∧
  calls isPatch (Reconcile pkg r req w).2 = 0%nat.
Proof.
  intros Hget Hcl Hlabel Hid Hident.
  assert (Hrun : Reconcile pkg r req w =
    ((Result0,
      Some (Errorf "unable to load instance group object for node %s: %v"
              [OpString (Name node);
               OpError (Errorf "error identifying node %q: %v"
                          [OpString (Name node); OpError err])])),
     w3, EvGet req :: tr2 ++ [EvIdentifyNode node])).
  { eapply Reconcile_group_failed; [done..|].
    unfold getInstanceGroupForNode.
    rewrite bool_decide_eq_true_2 by done.
    rewrite bool_decide_eq_false_2 by done.
    unfold_M. by rewrite Hident. }
  split; [done|]. rewrite Hrun.
  pose proof (getClusterForNode_trace pkg r node w1) as H2.
  rewrite Hcl in H2. simpl in H2. subst tr2. by count_calls.
Qed.

(** X5.  When the identity provider answers but names no instance group,
    the pass ends with an error of its own, wrapped with the node name; no
    group manifest is read and nothing is patched. *)
Theorem provider_without_group_reported
    r req w node w1 cluster w2 tr2 identity w3 :
  client r req w = ((node, None), w1) →
  getClusterForNode pkg r node w1 = (Ok cluster, w2, tr2) →
  (index (Labels node) "kops.k8s.io/instancegroup").1 = "" →
  ProviderID node ≠ "" →
  identifier r node w2 = (Ok identity, w3) →
  InstanceGroup identity = "" →
  Reconcile pkg r req w =
    ((Result0,
      Some (Errorf "unable to load instance group object for node %s: %v"
              [OpString (Name node);
               OpError
                 (Errorf "node %q did not have an associate instance group"
                    [OpString (Name node)])])),
     w3, EvGet req :: tr2 ++ [EvIdentifyNode node]) ∧
  calls isRead (Reconcile pkg r req w).2 = 1%nat ∧
  calls isPatch (Reconcile pkg r req w).2 = 0%nat.
Proof.
  intros Hget Hcl Hlabel Hid Hident Hnone.
  assert (Hrun : Reconcile pkg r req w =
    ((Result0,
      Some (Errorf "unable to load instance group object for node %s: %v"
              [OpString (Name node);
               OpError
                 (Errorf "node %q did not have an associate instance group"
                    [OpString (Name node)])])),
     w3, EvGet req :: tr2 ++ [EvIdentifyNode node])).
  { eapply Reconcile_group_failed; [done..|].
    unfold getInstanceGroupForNode.
    rewrite bool_decide_eq_true_2 by done.
    rewrite bool_decide_eq_false_2 by done.
    unfold_M. rewrite Hident. simpl.
    by rewrite bool_decide_eq_true_2 by done. }
  split; [done|]. rewrite Hrun.
  pose proof (getClusterForNode_trace pkg r node w1) as H2.
  rewrite Hcl in H2. simpl in H2. subst tr2. by count_calls.
Qed.

(** X6.  A group label with the empty string as value counts as no group
    label: without a provider ID group resolution fails with the validation
    error and makes no call, with one it starts by asking the identity
    provider. *)
Theorem empty_group_label_is_no_label r node w :
  Labels node !! "kops.k8s.io/instancegroup" = Some "" →
  (ProviderID node = "" →
   getInstanceGroupForNode pkg r node w =
     (Err (Errorf "node providerID not set for node %q"
             [OpString (Name node)]), w, [])) ∧
  (ProviderID node ≠ "" →
   ∃ rest, (getInstanceGroupForNode pkg r node w).2
           = EvIdentifyNode node :: rest).
Proof.
  intros Hlabel.
  assert (Hname : (index (Labels node) "kops.k8s.io/instancegroup").1 = "").
  { unfold index. by rewrite Hlabel. }
  split; intros Hid.
  - by apply getInstanceGroupForNode_anonymous.
  - destruct (getInstanceGroupForNode_fallback pkg r node w Hname Hid)
      as (rest & Hrest & _).
    by exists rest.
Qed.

(** X7.  The group label is trusted as it is: two nodes that carry the same
    non-empty group label get the same group resolution from any two
    reconcilers that share cache and configuration base, whatever their
    provider IDs and whatever the identity providers would answer; the
    identity provider is not asked. *)
Theorem group_label_trusted r r' node node' name w :
  Labels node !! "kops.k8s.io/instancegroup" = Some name →
  Labels node' !! "kops.k8s.io/instancegroup" = Some name →
  name ≠ "" →
  cache r = cache r' →
  configBase r = configBase r' →
  getInstanceGroupForNode pkg r node w
    = getInstanceGroupForNode pkg r' node' w ∧
  (getInstanceGroupForNode pkg r node w).2
    = [EvRead (groupPathOf r name) time_Hour].
Proof.
  intros Hl Hl' Hne Hcache Hbase.
  assert (Hn : (index (Labels node) "kops.k8s.io/instancegroup").1 = name).
  { unfold index. by rewrite Hl. }
  assert (Hn' : (index (Labels node') "kops.k8s.io/instancegroup").1 = name).
  { unfold index. by rewrite Hl'. }
  rewrite !getInstanceGroupForNode_labelled by congruence.
  rewrite Hn, Hn'. split.
  - unfold loadNamedInstanceGroup. by rewrite Hcache, Hbase.
  - apply loadNamedInstanceGroup_trace.
Qed.

(** X8.  When the labels cannot be built, the pass ends with that error
    wrapped with the node name; the lifecycle step is not reached, so the
    identity provider is asked no more than group resolution asked it, and
    nothing is patched. *)
Theorem labels_failure_reported
    r req w node w1 cluster w2 tr2 ig w3 tr3 err :
  client r req w = ((node, None), w1) →
  getClusterForNode pkg r node w1 = (Ok cluster, w2, tr2) →
  getInstanceGroupForNode pkg r node w2 = (Ok ig, w3, tr3) →
  BuildNodeLabels pkg cluster ig = Err err →
  Reconcile pkg r req w =
    ((Result0,
      Some (Errorf "error building node labels for node %q: %w"
              [OpString (Name node); OpError err])),
     w3, EvGet req :: tr2 ++ tr3) ∧
  calls isIdentifyNode (Reconcile pkg r req w).2 = calls isIdentifyNode tr3 ∧
  calls isPatch (Reconcile pkg r req w).2 = 0%nat.
Proof.
  intros Hget Hcl Hig Hl.
  rewrite (Reconcile_labels_failed pkg _ _ _ _ _ _ _ _ _ _ _ _ Hget Hcl Hig Hl).
  split; [done|].
  pose proof (getClusterForNode_trace pkg r node w1) as H2.
  rewrite Hcl in H2. simpl in H2. subst tr2.
  destruct (getInstanceGroupForNode_budget r node w2) as (_ & _ & Hp & _).
  rewrite Hig in Hp. simpl in Hp.
  count_calls. by rewrite Hp.
Qed.

(** *** What holds of every pass *)


(** The calls of a pass after the fetch of a node that was found. *)
Lemma resolvesLabels_budget r req w node labels lifecycle w4 tr :
  resolvesLabels pkg r req w node labels lifecycle w4 tr →
  ∃ gt, tr = EvGet req :: EvRead (clusterPathOf r) time_Hour :: gt
             ++ [EvIdentifyNode node] ∧
        calls isRead gt = 1%nat ∧
        (calls isIdentifyNode gt ≤ 1)%nat ∧
        calls isPatch gt = 0%nat ∧
        (∀ ev, ev ∈ gt →
           ev = EvIdentifyNode node ∨
           ∃ name, name ≠ "" ∧ ev = EvRead (groupPathOf r name) time_Hour).
Proof.
  intros (w3 & tr3 & tr4 & Hreach & Hlc & ->).
  destruct (reachesLifecycle_budget _ _ _ _ _ _ _ Hreach)
    as (gt & -> & Hr & Hi & Hp & Hev).
  pose proof (getInstanceLifecycle_trace r node w3) as H4.
  rewrite Hlc in H4. simpl in H4. subst tr4.
  exists gt. repeat split; eauto.
Qed.

(** X10.  The calls of one pass: the fetch, first and only once; at most
    two reads of manifests; at most two questions to the identity provider;
    at most one patch. *)
Theorem call_budget r req w :
  ∃ rest,
    (Reconcile pkg r req w).2 = EvGet req :: rest ∧
    (∀ key, EvGet key ∉ rest) ∧
    (calls isRead rest ≤ 2)%nat ∧
    (calls isIdentifyNode rest ≤ 2)%nat ∧
    (calls isPatch rest ≤ 1)%nat.
Proof.
  destruct (Reconcile_cases r req w)
    as [(node & err & w1 & _ & ->)
       |[(node & w1 & err & w2 & _ & _ & ->)
       |[(node & w1 & cluster & w2 & err & w3 & tr3 & _ & _ & Hig & ->)
       |[(node & w1 & cluster & w2 & ig & w3 & tr3 & err & _ & _ & Hig & _ & ->)
       |[(node & labels & w3 & tr & err & w4 & Hreach & _ & ->)
       |(node & labels & lifecycle & w4 & tr & Hres & ->)]]]]].
  - eexists. split; [reflexivity|]. split.
    + intros key [Heq|Hin]%elem_of_cons; [discriminate Heq|].
      by apply elem_of_nil in Hin.
    + count_calls. lia.
  - eexists. split; [reflexivity|]. split.
    + intros key [Heq|Hin]%elem_of_cons; [discriminate Heq|].
      by apply elem_of_nil in Hin.
    + count_calls. lia.
  - destruct (getInstanceGroupForNode_budget r node w2)
      as (Hr & Hi & Hp & _ & Hev).
    rewrite Hig in Hr, Hi, Hp, Hev. simpl in *.
    eexists. split; [reflexivity|]. split.
    + intros key [Heq|Hin]%elem_of_cons; [discriminate Heq|].
      apply Hev in Hin as [Heq|(name & _ & Heq)]; discriminate Heq.
    + count_calls. lia.
  - destruct (getInstanceGroupForNode_budget r node w2)
      as (Hr & Hi & Hp & _ & Hev).
    rewrite Hig in Hr, Hi, Hp, Hev. simpl in *.
    eexists. split; [reflexivity|]. split.
    + intros key [Heq|Hin]%elem_of_cons; [discriminate Heq|].
      apply Hev in Hin as [Heq|(name & _ & Heq)]; discriminate Heq.
    + count_calls. lia.
  - destruct (reachesLifecycle_budget _ _ _ _ _ _ _ Hreach)
      as (gt & -> & Hr & Hi & Hp & Hev).
    exists (EvRead (clusterPathOf r) time_Hour :: gt ++ [EvIdentifyNode node]).
    split; [reflexivity|]. split.
    + intros key [Heq|[Hin|Hin]%elem_of_app]%elem_of_cons;
        [discriminate Heq| |].
      * apply Hev in Hin as [Heq|(name & _ & Heq)]; discriminate Heq.
      * apply list_elem_of_singleton in Hin. discriminate Hin.
    + count_calls. lia.
  - destruct (resolvesLabels_budget _ _ _ _ _ _ _ _ Hres)
      as (gt & -> & Hr & Hi & Hp & Hev).
    assert (Hgt : ∀ key, EvGet key ∉ gt).
    { intros key Hin.
      apply Hev in Hin as [Heq|(name & _ & Heq)]; discriminate Heq. }
    destruct (diffAndPatch_cases r node (withLifecycle labels lifecycle) w4)
      as [[_ ->]|[_ (e & w' & _ & ->)]]; simpl.
    + exists (EvRead (clusterPathOf r) time_Hour
              :: (gt ++ [EvIdentifyNode node])
              ++ [EvLog (InfoV 4) "no label changes needed for %s"
                    [OpString (Name node)]]).
      split; [reflexivity|]. split.
      * intros key Hin. rewrite !elem_of_cons, !elem_of_app in Hin.
        rewrite !elem_of_cons, !elem_of_nil in Hin.
        destruct Hin as [Heq|[[Hin|[Heq|[]]]|[Heq|[]]]];
          try discriminate Heq.
        by apply (Hgt key).
      * count_calls. lia.
    + exists (EvRead (clusterPathOf r) time_Hour
              :: (gt ++ [EvIdentifyNode node])
              ++ EvPatch node
                   (updateLabels (Labels node) (withLifecycle labels lifecycle))
                   (deleteOf (Labels node) (withLifecycle labels lifecycle))
                 :: match e with
                    | Some e =>
                        [EvLog Warning "failed to patch node labels on %s: %v"
                           [OpString (Name node); OpError e]]
                    | None => []
                    end).
      split; [reflexivity|]. split.
      * intros key Hin. rewrite !elem_of_cons, !elem_of_app in Hin.
        rewrite !elem_of_cons, !elem_of_nil in Hin.
        destruct Hin as [Heq|[[Hin|[Heq|[]]]|[Heq|Hin]]];
          try discriminate Heq; [by apply (Hgt key)|].
        destruct e; [|by apply elem_of_nil in Hin].
        apply list_elem_of_singleton in Hin. discriminate Hin.
      * destruct e; count_calls; lia.
Qed.

(** The manifests a pass reads. *)
Lemma Reconcile_reads r req w p ttl :
  EvRead p ttl ∈ (Reconcile pkg r req w).2 →
  ttl = time_Hour ∧
  (p = clusterPathOf r ∨ ∃ name, name ≠ "" ∧ p = groupPathOf r name).
Proof.
  assert (Hgroup : ∀ node gt,
    (∀ ev, ev ∈ gt →
       ev = EvIdentifyNode node ∨
       ∃ name, name ≠ "" ∧ ev = EvRead (groupPathOf r name) time_Hour) →
    EvRead p ttl ∈ gt →
    ttl = time_Hour ∧
    (p = clusterPathOf r ∨ ∃ name, name ≠ "" ∧ p = groupPathOf r name)).
  { intros node gt Hev Hin.
    apply Hev in Hin as [Heq|(name & Hne & Heq)]; [discriminate Heq|].
    injection Heq as -> ->. split; [done|]. right. by exists name. }
  destruct (Reconcile_cases r req w)
    as [(node & err & w1 & _ & ->)
       |[(node & w1 & err & w2 & _ & _ & ->)
       |[(node & w1 & cluster & w2 & err & w3 & tr3 & _ & _ & Hig & ->)
       |[(node & w1 & cluster & w2 & ig & w3 & tr3 & err & _ & _ & Hig & _ & ->)
       |[(node & labels & w3 & tr & err & w4 & Hreach & _ & ->)
       |(node & labels & lifecycle & w4 & tr & Hres & ->)]]]]]; simpl.
  - rewrite !elem_of_cons, elem_of_nil.
    intros [Heq|[Heq|[]]]; discriminate Heq.
  - rewrite !elem_of_cons, elem_of_nil.
    intros [Heq|[Heq|[]]]; [discriminate Heq|].
    injection Heq as -> ->. split; [done|by left].
  - destruct (getInstanceGroupForNode_budget r node w2) as (_ & _ & _ & _ & Hev).
    rewrite Hig in Hev. simpl in Hev.
    rewrite !elem_of_cons. intros [Heq|[Heq|Hin]]; [discriminate Heq| |].
    + injection Heq as -> ->. split; [done|by left].
    + by apply (Hgroup node tr3).
  - destruct (getInstanceGroupForNode_budget r node w2) as (_ & _ & _ & _ & Hev).
    rewrite Hig in Hev. simpl in Hev.
    rewrite !elem_of_cons. intros [Heq|[Heq|Hin]]; [discriminate Heq| |].
    + injection Heq as -> ->. split; [done|by left].
    + by apply (Hgroup node tr3).
  - destruct (reachesLifecycle_budget _ _ _ _ _ _ _ Hreach)
      as (gt & -> & _ & _ & _ & Hev).
    rewrite elem_of_app, !elem_of_cons, elem_of_nil.
    intros [[Heq|[Heq|Hin]]|[Heq|[]]]; try discriminate Heq.
    + injection Heq as -> ->. split; [done|by left].
    + by apply (Hgroup node gt).
  - destruct (resolvesLabels_budget _ _ _ _ _ _ _ _ Hres)
      as (gt & -> & _ & _ & _ & Hev).
    rewrite after_trace, elem_of_app, !elem_of_cons, elem_of_app.
    rewrite !elem_of_cons, elem_of_nil.
    intros [[Heq|[Heq|[Hin|[Heq|[]]]]]|Hin]; try discriminate Heq.
    + injection Heq as -> ->. split; [done|by left].
    + by apply (Hgroup node gt).
    + destruct (diffAndPatch_cases r node (withLifecycle labels lifecycle) w4)
        as [[_ Hd]|[_ (e & w' & _ & Hd)]]; rewrite Hd in Hin; simpl in Hin.
      * apply list_elem_of_singleton in Hin. discriminate Hin.
      * apply elem_of_cons in Hin as [Heq|Hin]; [discriminate Heq|].
        destruct e; [|by apply elem_of_nil in Hin].
        apply list_elem_of_singleton in Hin. discriminate Hin.
Qed.

(** X11.  Every manifest a pass reads is read through the cache with a
    time to live of one hour, and lies under the configuration base: it is
    the completed cluster specification or the manifest of an instance
    group with a non-empty name.  For a node that was found, the cluster
    specification is read right after the fetch. *)
Theorem reads_under_config_base r req w :
  (∀ p ttl, EvRead p ttl ∈ (Reconcile pkg r req w).2 →
            ttl = time_Hour ∧
            (p = clusterPathOf r ∨
             ∃ name, name ≠ "" ∧ p = groupPathOf r name)) ∧
  (∀ node w1, client r req w = ((node, None), w1) →
              ∃ rest, (Reconcile pkg r req w).2 =
                        EvGet req :: EvRead (clusterPathOf r) time_Hour :: rest).
Proof.
  split; [intros p ttl; apply Reconcile_reads|].
  intros node0 w0 Hget0.
  destruct (Reconcile_cases r req w)
    as [(node & err & w1 & Hget & _)
       |[(node & w1 & err & w2 & _ & _ & ->)
       |[(node & w1 & cluster & w2 & err & w3 & tr3 & _ & _ & Hig & ->)
       |[(node & w1 & cluster & w2 & ig & w3 & tr3 & err & _ & _ & Hig & _ & ->)
       |[(node & labels & w3 & tr & err & w4 & Hreach & _ & ->)
       |(node & labels & lifecycle & w4 & tr & Hres & ->)]]]]]; simpl.
  - congruence.
  - by eexists.
  - by eexists.
  - by eexists.
  - destruct (reachesLifecycle_budget _ _ _ _ _ _ _ Hreach) as (gt & -> & _).
    by eexists.
  - destruct (resolvesLabels_budget _ _ _ _ _ _ _ _ Hres) as (gt & -> & _).
    rewrite after_trace. by eexists.
Qed.

(** *** The patch call *)

Lemma calls_zero_not_elem kind t ev :
  calls kind t = 0%nat → ev ∈ t → kind ev = false.
Proof.
  induction t as [|e t IH]; intros Hz Hin.
  { by apply elem_of_nil in Hin. }
  rewrite calls_cons in Hz.
  apply elem_of_cons in Hin as [->|Hin].
  - destruct (kind e); [simpl in Hz; lia|done].
  - apply IH; [|done]. destruct (kind e); simpl in Hz; lia.
Qed.

Lemma noChanges_false (u : gmap string string) (d : gset string) :
  noChanges u d = false → u ≠ ∅ ∨ d ≠ ∅.
Proof.
  intros Hn. destruct (decide (u = ∅)) as [->|Hu]; [|by left].
  right. intros ->. discriminate Hn.
Qed.

(** A patch call in the trace of a pass pins the pass down: it resolved the
    labels, found something to change, and the patch call, with the two
    sets of the diff, is what the rest of the pass consists of. *)
Lemma Reconcile_patch_inv r req w node u d :
  EvPatch node u d ∈ (Reconcile pkg r req w).2 →
  ∃ labels lifecycle w4 tr err w',
    resolvesLabels pkg r req w node labels lifecycle w4 tr ∧
    u = updateLabels (Labels node) (withLifecycle labels lifecycle) ∧
    d = deleteOf (Labels node) (withLifecycle labels lifecycle) ∧
    noChanges u d = false ∧
    coreV1Client r node u d w4 = (err, w') ∧
    Reconcile pkg r req w =
      ((Result0, err), w',
       tr ++ EvPatch node u d ::
             match err with
             | Some e => [EvLog Warning "failed to patch node labels on %s: %v"
                            [OpString (Name node); OpError e]]
             | None => []
             end).
Proof.
  intros Hin.
  assert (Hno : ∀ t, calls isPatch t = 0%nat → EvPatch node u d ∉ t).
  { intros t Hz Ht. by pose proof (calls_zero_not_elem _ _ _ Hz Ht). }
  destruct (Reconcile_cases r req w)
    as [(node' & err & w1 & _ & Hrun)
       |[(node' & w1 & err & w2 & _ & _ & Hrun)
       |[(node' & w1 & cluster & w2 & err & w3 & tr3 & _ & _ & Hig & Hrun)
       |[(node' & w1 & cluster & w2 & ig & w3 & tr3 & err & _ & _ & Hig & _ & Hrun)
       |[(node' & labels & w3 & tr & err & w4 & Hreach & _ & Hrun)
       |(node' & labels & lifecycle & w4 & tr & Hres & Hrun)]]]]];
    rewrite Hrun in Hin; simpl in Hin.
  - by apply Hno in Hin.
  - by apply Hno in Hin.
  - apply Hno in Hin; [done|].
    destruct (getInstanceGroupForNode_budget r node' w2) as (_ & _ & Hp & _).
    rewrite Hig in Hp. simpl in Hp. by count_calls.
  - apply Hno in Hin; [done|].
    destruct (getInstanceGroupForNode_budget r node' w2) as (_ & _ & Hp & _).
    rewrite Hig in Hp. simpl in Hp. by count_calls.
  - apply Hno in Hin; [done|].
    destruct (reachesLifecycle_budget _ _ _ _ _ _ _ Hreach)
      as (gt & -> & _ & _ & Hp & _).
    count_calls. by rewrite Hp.
  - rewrite after_trace in Hin. apply elem_of_app in Hin as [Hin|Hin].
    { apply Hno in Hin; [done|].
      destruct (resolvesLabels_budget _ _ _ _ _ _ _ _ Hres)
        as (gt & -> & _ & _ & Hp & _).
      count_calls. by rewrite Hp. }
    destruct (diffAndPatch_cases r node' (withLifecycle labels lifecycle) w4)
      as [[_ Hd]|[Hchg (e & w' & Hpatch & Hd)]]; rewrite Hd in Hin, Hrun;
      simpl in Hin, Hrun.
    { apply list_elem_of_singleton in Hin. discriminate Hin. }
    apply elem_of_cons in Hin as [Heq|Hin].
    + injection Heq as -> -> ->.
      by exists labels, lifecycle, w4, tr, e, w'.
    + destruct e; [|by apply elem_of_nil in Hin].
      apply list_elem_of_singleton in Hin. discriminate Hin.
Qed.

(** X12.  Every patch call a pass makes is for the node it fetched and
    carries exactly the diff against the labels it resolved; the patch is
    never empty, it sets only desired labels that the node does not carry
    with that value, and it removes only managed keys that the node carries
    and that are not desired. *)
Theorem patch_is_the_diff r req w node u d :
  EvPatch node u d ∈ (Reconcile pkg r req w).2 →
  ∃ labels lifecycle w4 tr,
    resolvesLabels pkg r req w node labels lifecycle w4 tr ∧
    u = updateLabels (Labels node) (withLifecycle labels lifecycle) ∧
    d = deleteOf (Labels node) (withLifecycle labels lifecycle) ∧
    (u ≠ ∅ ∨ d ≠ ∅) ∧
    (∀ k v, u !! k = Some v →
            withLifecycle labels lifecycle !! k = Some v ∧
            Labels node !! k ≠ Some v) ∧
    (∀ k, k ∈ d →
          k ∈ managedOf ∧ k ∈ dom (Labels node) ∧
          k ∉ dom (withLifecycle labels lifecycle)).
Proof.
  intros Hin.
  destruct (Reconcile_patch_inv _ _ _ _ _ _ Hin)
    as (labels & lifecycle & w4 & tr & err & w' & Hres & Hu & Hd & Hchg & _).
  exists labels, lifecycle, w4, tr.
  split; [done|]. split; [done|]. split; [done|].
  split; [by apply noChanges_false|]. split.
  - intros k v Hk. rewrite Hu, lookup_updateLabels in Hk.
    destruct (withLifecycle labels lifecycle !! k) as [v'|]; [|done].
    case_decide; [done|]. by injection Hk as <-.
  - intros k Hk. rewrite Hd in Hk.
    apply elem_of_deleteLabels in Hk as (HL & Hm & HD).
    split; [done|]. split; [by apply elem_of_dom|by apply not_elem_of_dom].
Qed.

(** X13.  A pass patches only at its very end: before the patch call it has
    read both manifests and asked the identity provider for the lifecycle
    class, and after it nothing is called any more; only a failed patch is
    followed by one warning. *)
Theorem patch_comes_last r req w node u d :
  EvPatch node u d ∈ (Reconcile pkg r req w).2 →
  ∃ tr logs,
    (Reconcile pkg r req w).2 = tr ++ EvPatch node u d :: logs ∧
    calls isRead tr = 2%nat ∧
    (1 ≤ calls isIdentifyNode tr ≤ 2)%nat ∧
    calls isPatch tr = 0%nat ∧
    (logs = [] ∨ ∃ args, logs = [EvLog Warning
                                   "failed to patch node labels on %s: %v"
                                   args]).
Proof.
  intros Hin.
  destruct (Reconcile_patch_inv _ _ _ _ _ _ Hin)
    as (labels & lifecycle & w4 & tr & err & w' & Hres & _ & _ & _ & _ & ->).
  destruct (resolvesLabels_budget _ _ _ _ _ _ _ _ Hres)
    as (gt & -> & Hr & Hi & Hp & _).
  eexists _, _. split; [reflexivity|].
  split; [count_calls; lia|]. split; [count_calls; lia|].
  split; [count_calls; lia|].
  destruct err; [right; by eexists|by left].
Qed.

(** X14.  For a node that was found, [Reconcile] reports success only when
    it has resolved the labels and then either found nothing to change or
    seen the patch call succeed: apart from the not-found fetch no failure
    on the way is swallowed. *)
Theorem success_means_settled r req w node w1 :
  client r req w = ((node, None), w1) →
  (Reconcile pkg r req w).1.1.2 = None →
  ∃ labels lifecycle w4 tr,
    resolvesLabels pkg r req w node labels lifecycle w4 tr ∧
    (noChanges
       (updateLabels (Labels node) (withLifecycle labels lifecycle))
       (deleteOf (Labels node) (withLifecycle labels lifecycle)) = true ∨
     (coreV1Client r node
        (updateLabels (Labels node) (withLifecycle labels lifecycle))
        (deleteOf (Labels node) (withLifecycle labels lifecycle)) w4).1
       = None).
Proof.
  intros Hget Hok.
  destruct (Reconcile_cases r req w)
    as [(node' & err & w1' & Hget' & Hrun)
       |[(node' & w1' & err & w2 & _ & _ & Hrun)
       |[(node' & w1' & cluster & w2 & err & w3 & tr3 & _ & _ & _ & Hrun)
       |[(node' & w1' & cluster & w2 & ig & w3 & tr3 & err & _ & _ & _ & _ & Hrun)
       |[(node' & labels & w3 & tr & err & w4 & _ & _ & Hrun)
       |(node' & labels & lifecycle & w4 & tr & Hres & Hrun)]]]]];
    rewrite Hrun in Hok; try discriminate Hok.
  { congruence. }
  assert (node' = node) as ->.
  { destruct Hres as (? & ? & ? & (w1' & ? & ? & ? & ? & ? & Hget' & _) & _).
    congruence. }
  exists labels, lifecycle, w4, tr. split; [done|].
  destruct (diffAndPatch_cases r node (withLifecycle labels lifecycle) w4)
    as [[Hn _]|[_ (e & w' & Hpatch & Hd)]]; [by left|right].
  rewrite Hd in Hok. simpl in Hok. by rewrite Hpatch.
Qed.

(** X15.  A pass over a node that carries a non-empty group label and
    reaches the lifecycle step asks the identity provider exactly once, for
    the lifecycle class, and reads exactly the two manifests. *)
Theorem labelled_node_asks_provider_once r req w node name labels w3 tr :
  Labels node !! "kops.k8s.io/instancegroup" = Some name →
  name ≠ "" →
  reachesLifecycle pkg r req w node labels w3 tr →
  tr = [EvGet req; EvRead (clusterPathOf r) time_Hour;
        EvRead (groupPathOf r name) time_Hour] ∧
  calls isIdentifyNode (Reconcile pkg r req w).2 = 1%nat ∧
  calls isRead (Reconcile pkg r req w).2 = 2%nat.
Proof.
  intros Hlabel Hne Hreach.
  assert (Hn : (index (Labels node) "kops.k8s.io/instancegroup").1 = name).
  { unfold index. by rewrite Hlabel. }
  assert (Htr : tr = [EvGet req; EvRead (clusterPathOf r) time_Hour;
                      EvRead (groupPathOf r name) time_Hour]).
  { destruct (reachesLifecycle_trace pkg _ _ _ _ _ _ _ Hreach) as [w2 ->].
    rewrite getInstanceGroupForNode_labelled by congruence.
    by rewrite loadNamedInstanceGroup_trace, Hn. }
  split; [done|].
  pose proof (getInstanceLifecycle_trace r node w3) as H4.
  destruct (getInstanceLifecycle r node w3) as [[[lifecycle|err] w4] tr4] eqn:Hlc;
    simpl in H4; subst tr4.
  - rewrite (Reconcile_resolved pkg r req w node labels lifecycle w4
               (tr ++ [EvIdentifyNode node])).
    2: { do 3 eexists. repeat split; eassumption || reflexivity. }
    rewrite after_trace, Htr.
    destruct (diffAndPatch_calls pkg r node (withLifecycle labels lifecycle) w4)
      as [Hi Hr].
    count_calls. by rewrite Hi, Hr.
  - rewrite (Reconcile_lifecycle_failed pkg _ _ _ _ _ _ _ _ _ _ Hreach Hlc), Htr.
    by count_calls.
Qed.

End PassFacts.

(** ** The diff, once more *)

Section DiffMore.

Variables c1 c2 c3 c4 : string.

(** X16.  One patch is enough: on the labels that the patch of the diff
    leaves on the node, the diff against the same desired labels is empty,
    so the next pass has nothing to change. *)
Theorem diff_converges (L D : gmap string string) :
  let L' := applyPatch L (updateLabels L D) (deleteLabels c1 c2 c3 c4 L D) in
  updateLabels L' D = ∅ ∧
  deleteLabels c1 c2 c3 c4 L' D = ∅ ∧
  noChanges (updateLabels L' D) (deleteLabels c1 c2 c3 c4 L' D) = true.
Proof.
  intros L'.
  assert (HL' : ∀ k, L' !! k =
            match D !! k with
            | Some v => Some v
            | None => if decide (k ∈ managedKeys c1 c2 c3 c4) then None
                      else L !! k
            end).
  { intros k. apply lookup_applyPatch_diff. }
  destruct (diff_settled c1 c2 c3 c4 L' D) as [Hu Hd].
  - apply map_subseteq_spec. intros k v Hk. by rewrite HL', Hk.
  - intros k Hm [v Hk]%elem_of_dom. apply elem_of_dom.
    rewrite HL' in Hk. destruct (D !! k) as [v'|]; [by eexists|].
    by rewrite decide_True in Hk.
  - by rewrite Hu, Hd.
Qed.

(** X17.  The diff looks at the labels of the node only under desired keys
    and managed keys: two label maps that agree on those give the same
    update set and the same delete set, so a label of somebody else can
    come and go without a patch being caused by it. *)
Theorem diff_ignores_other_labels (L L' D : gmap string string) :
  (∀ k, k ∈ dom D ∨ k ∈ managedKeys c1 c2 c3 c4 → L !! k = L' !! k) →
  updateLabels L D = updateLabels L' D ∧
  deleteLabels c1 c2 c3 c4 L D = deleteLabels c1 c2 c3 c4 L' D.
Proof.
  intros Hagree. split.
  - apply map_eq. intros k. rewrite !lookup_updateLabels.
    destruct (D !! k) as [v|] eqn:HD; [|done].
    rewrite (Hagree k); [done|]. left. apply elem_of_dom. by eexists.
  - apply set_eq. intros k. rewrite !elem_of_deleteLabels.
    split; intros (HL & Hm & HD); (split; [|done]).
    + rewrite <- (Hagree k); [done|by right].
    + rewrite (Hagree k); [done|by right].
Qed.

End DiffMore.

(** ** The constructor and the reconciler it builds *)

Section ConstructorFacts.

Context {World Path api_Cluster api_InstanceGroup ExtError RestConfig : Type}.

Variable pkg : @Packages Path api_Cluster api_InstanceGroup ExtError.

Implicit Types r :
  @LegacyNodeReconciler World Path api_Cluster api_InstanceGroup ExtError.
Implicit Types mgr :
  @Manager World Path api_Cluster api_InstanceGroup ExtError RestConfig.

(** X18.  The constructor hands out a reconciler or an error, never both
    and never a half-built reconciler.  A client that cannot be built is
    reported first, whatever the configuration path; a path that does not
    parse is reported with the path as it was given; a reconciler that is
    handed out holds the client of the manager, the client and the path
    that were built, the identifier it was given and the new cache. *)
Theorem constructor_all_or_nothing
    NewForConfig NewCache mgr BuildVfsPath configPath identifier0 :
  (∀ err,
     NewForConfig (GetConfig mgr) = Err err →
     NewLegacyNodeReconciler NewForConfig NewCache mgr BuildVfsPath configPath
       identifier0
     = Err (Errorf "error building corev1 client: %v" [OpError err])) ∧
  (∀ coreClient err,
     NewForConfig (GetConfig mgr) = Ok coreClient →
     BuildVfsPath configPath = Err err →
     NewLegacyNodeReconciler NewForConfig NewCache mgr BuildVfsPath configPath
       identifier0
     = Err (Errorf "cannot parse ConfigBase %q: %v"
              [OpString configPath; OpError err])) ∧
  (∀ r,
     NewLegacyNodeReconciler NewForConfig NewCache mgr BuildVfsPath configPath
       identifier0 = Ok r →
     NewForConfig (GetConfig mgr) = Ok (coreV1Client r) ∧
     BuildVfsPath configPath = Ok (configBase r) ∧
     client r = GetClient mgr ∧
     identifier r = identifier0 ∧
     cache r = NewCache).
Proof.
  unfold NewLegacyNodeReconciler. split; [|split].
  - by intros err ->.
  - by intros coreClient err -> ->.
  - intros r.
    destruct (NewForConfig (GetConfig mgr)) as [coreClient|err]; [|done].
    destruct (BuildVfsPath configPath) as [base|err]; [|done].
    by intros [= <-].
Qed.

(** X19.  A reconciler that the constructor has built for a configuration
    path fetches nodes through the client of the manager and reads, in any
    pass, only under the path that was parsed from that configuration
    path: the completed cluster specification and manifests of instance
    groups with a non-empty name, with one hour to live. *)
Theorem constructed_reconciler_reads_under_config_path
    NewForConfig NewCache mgr BuildVfsPath configPath identifier0 r :
  NewLegacyNodeReconciler NewForConfig NewCache mgr BuildVfsPath configPath
    identifier0 = Ok r →
  ∃ base,
    BuildVfsPath configPath = Ok base ∧
    ∀ req w,
      (client r req w = GetClient mgr req w) ∧
      ∀ p ttl,
        EvRead p ttl ∈ (Reconcile pkg r req w).2 →
        ttl = time_Hour ∧
        (p = Join pkg base [PathClusterCompleted pkg] ∨
         ∃ name, name ≠ "" ∧ p = Join pkg base ["instancegroup"; name]).
Proof.
  unfold NewLegacyNodeReconciler.
  destruct (NewForConfig (GetConfig mgr)) as [coreClient|err]; [|done].
  destruct (BuildVfsPath configPath) as [base|err]; [|done].
  intros [= <-]. exists base. split; [done|].
  intros req w. split; [done|].
  intros p ttl Hin. by apply (Reconcile_reads pkg) in Hin.
Qed.

End ConstructorFacts.

(** ** The claims on the demo cluster *)

Section Examples.

Import Demo.

Abbreviation c1 := (RoleLabelMaster16 packages).
Abbreviation c2 := (RoleLabelAPIServer16 packages).
Abbreviation c3 := (RoleLabelNode16 packages).
Abbreviation c4 := (RoleLabelControlPlane20 packages).

Ltac by_computing := apply (bool_decide_unpack _); vm_compute; exact I.
Ltac by_running := vm_compute; reflexivity.

(** The diff for the labelled node, wanted as a spot node of [nodes]: the
    role label [node] is set (the group label and the spot label are there
    already), the legacy [master] label goes, the label of the storage team
    stays. *)
Lemma diff_exact_witness :
  let L := Labels labelledNode in
  let D := withLifecycle nodesLabels "spot" in
  updateLabels L D = {[ "node-role.kubernetes.io/node" := "" ]} ∧
  deleteLabels c1 c2 c3 c4 L D = {[ "node-role.kubernetes.io/master" ]} ∧
  applyPatch L (updateLabels L D) (deleteLabels c1 c2 c3 c4 L D)
    !! "node-role.kubernetes.io/master" = None ∧
  applyPatch L (updateLabels L D) (deleteLabels c1 c2 c3 c4 L D)
    !! "example.com/team" = Some "storage".
Proof.
  intros L D.
  destruct (diff_exact c1 c2 c3 c4 L D) as (Hu & Hd & _ & Hagree & Hframe).
  split; [rewrite Hu; by_computing|].
  split; [rewrite Hd; by_computing|].
  split.
  - rewrite Hagree; [by_computing|]. left. by_computing.
  - rewrite Hframe; by_computing.
Defined.

Lemma unrelated_labels_untouched_witness :
  let L := Labels labelledNode in
  let D := withLifecycle nodesLabels "spot" in
  ("example.com/team" ∈ dom L) ∧
  ("example.com/team" ∉ dom D) ∧
  ("example.com/team" ∉ managedKeys c1 c2 c3 c4) ∧
  ("example.com/team" ∉ dom (updateLabels L D)) ∧
  ("example.com/team" ∉ deleteLabels c1 c2 c3 c4 L D) ∧
  applyPatch L (updateLabels L D) (deleteLabels c1 c2 c3 c4 L D)
    !! "example.com/team" = L !! "example.com/team".
Proof.
  intros L D.
  assert (H1 : "example.com/team" ∈ dom L) by by_computing.
  assert (H2 : "example.com/team" ∉ dom D) by by_computing.
  assert (H3 : "example.com/team" ∉ managedKeys c1 c2 c3 c4) by by_computing.
  do 3 (split; [assumption|]).
  exact (proj2 (unrelated_labels_untouched c1 c2 c3 c4 L D) _ H1 H2 H3).
Defined.

Lemma stale_lifecycle_label_kept_witness :
  forallb (λ m, negb (hasSuffix m "-worker")) (managedKeys c1 c2 c3 c4) = true ∧
  Labels labelledNode !! lifecycleLabel "spot" = Some "true" ∧
  let L := Labels labelledNode in
  let D := withLifecycle nodesLabels "" in
  (lifecycleLabel "spot" ∉ deleteLabels c1 c2 c3 c4 L D) ∧
  applyPatch L (updateLabels L D) (deleteLabels c1 c2 c3 c4 L D)
    !! lifecycleLabel "spot" = L !! lifecycleLabel "spot".
Proof.
  assert (H : forallb (λ m, negb (hasSuffix m "-worker"))
                (managedKeys c1 c2 c3 c4) = true) by by_running.
  split; [exact H|]. split; [by_running|]. intros L D.
  destruct (stale_lifecycle_label_kept c1 c2 c3 c4 "spot" L H) as [Hdel Hkeep].
  split; [apply Hdel|].
  apply (Hkeep nodesLabels ""); by_computing.
Defined.



(** The node is gone by the time the pass fetches it. *)
Lemma not_found_is_success_witness :
  let r := reconciler (zeroNode, Some (External "NotFound")) store
             (Ok onDemand) None in
  client r request 0%nat = ((zeroNode, Some (External "NotFound")), 1%nat) ∧
  IsNotFound packages (External "NotFound") = true ∧
  Reconcile packages r request 0%nat =
    ((Result0, None), 1%nat,
     [EvGet request;
      EvLog Warning "unable to fetch node %s: %v"
        [OpString ""; OpError (External "NotFound")]]).
Proof.
  intros r.
  assert (H1 : client r request 0%nat =
                 ((zeroNode, Some (External "NotFound")), 1%nat))
    by reflexivity.
  assert (H2 : IsNotFound packages (External "NotFound") = true)
    by by_running.
  split; [exact H1|]. split; [exact H2|].
  exact (proj1 (not_found_is_success packages r request 0%nat zeroNode
                  (External "NotFound") 1%nat H1 H2)).
Defined.

(** A pass over the fresh node asks the identity provider twice. *)
Lemma provider_asked_once_per_step_witness :
  let r := reconciler (freshNode, None) store (Ok spot) None in
  let tr : list Event :=
    [EvGet request; EvRead clusterPath time_Hour; EvIdentifyNode freshNode;
     EvRead groupPath time_Hour] in
  Labels freshNode !! "kops.k8s.io/instancegroup" = None ∧
  ProviderID freshNode ≠ "" ∧
  reachesLifecycle packages r request 0%nat freshNode nodesLabels 4%nat tr ∧
  calls isIdentifyNode (getInstanceGroupForNode packages r freshNode 2%nat).2
    = 1%nat ∧
  calls isIdentifyNode (Reconcile packages r request 0%nat).2 = 2%nat.
Proof.
  intros r tr.
  assert (H1 : Labels freshNode !! "kops.k8s.io/instancegroup" = None)
    by by_running.
  assert (H2 : ProviderID freshNode ≠ "") by by_computing.
  assert (H3 : reachesLifecycle packages r request 0%nat freshNode nodesLabels
                 4%nat tr).
  { exists 1%nat, tt, 2%nat, [EvRead clusterPath time_Hour], "nodes",
      [EvIdentifyNode freshNode; EvRead groupPath time_Hour].
    repeat split; by_running. }
  destruct (provider_asked_once_per_step packages r freshNode H1 H2)
    as (Hgroup & Hpass & _).
  split; [exact H1|]. split; [exact H2|]. split; [exact H3|].
  split; [apply Hgroup|]. exact (Hpass request 0%nat nodesLabels 4%nat tr H3).
Defined.

(** C5 as stated fails: the pass over the fresh node, which has no group
    label and does have a provider ID, asks the identity provider twice,
    not once. *)
Lemma provider_asked_twice :
  ¬ (∀ (r : @LegacyNodeReconciler nat string unit string string)
       req w node w1,
       client r req w = ((node, None), w1) →
       Labels node !! "kops.k8s.io/instancegroup" = None →
       ProviderID node ≠ "" →
       calls isIdentifyNode (Reconcile packages r req w).2 = 1%nat).
Proof.
  intros Hclaim.
  specialize (Hclaim (reconciler (freshNode, None) store (Ok spot) None)
                request 0%nat freshNode 1%nat).
  assert (Hone : calls isIdentifyNode
                   (Reconcile packages
                      (reconciler (freshNode, None) store (Ok spot) None)
                      request 0%nat).2 = 1%nat).
  { apply Hclaim; [reflexivity|by_running|by_computing]. }
  vm_compute in Hone. discriminate Hone.
Qed.

(** A pass over the node without provider ID. *)
Lemma anonymous_node_rejected_witness :
  let r := reconciler (anonymousNode, None) store (Ok onDemand) None in
  Labels anonymousNode !! "kops.k8s.io/instancegroup" = None ∧
  ProviderID anonymousNode = "" ∧
  Reconcile packages r request 0%nat =
    ((Result0,
      Some (Errorf "unable to load instance group object for node %s: %v"
              [OpString "node-1";
               OpError (Errorf "node providerID not set for node %q"
                          [OpString "node-1"])])),
     2%nat, [EvGet request; EvRead clusterPath time_Hour]) ∧
  calls isIdentifyNode (Reconcile packages r request 0%nat).2 = 0%nat.
Proof.
  intros r.
  assert (H1 : Labels anonymousNode !! "kops.k8s.io/instancegroup" = None)
    by by_running.
  assert (H2 : ProviderID anonymousNode = "") by reflexivity.
  destruct (anonymous_node_rejected packages r anonymousNode H1 H2)
    as (_ & Hpass & Hnever).
  split; [exact H1|]. split; [exact H2|]. split.
  - apply (Hpass request 0%nat 1%nat tt 2%nat [EvRead clusterPath time_Hour]);
      by_running.
  - apply (Hnever request 0%nat 1%nat). by_running.
Defined.



(** Scenario D of the specification: the cluster manifest does not parse. *)
Example broken_cluster_manifest :
  Reconcile packages
    (reconciler (freshNode, None) storeBrokenCluster (Ok spot) None)
    request 0%nat =
  ((Result0,
    Some (Errorf "unable to load cluster object for node %s: %v"
            [OpString "node-1";
             OpError
               (Errorf "error parsing Cluster %q: %v"
                  [OpPath clusterPath;
                   OpError
                     (External "yaml: did not find expected node content")])])),
   2%nat, [EvGet request; EvRead clusterPath time_Hour]).
Proof. by_running. Qed.

(** A keyset where the cluster manifest should be. *)
Example keyset_as_cluster_manifest :
  Reconcile packages
    (reconciler (freshNode, None) storeKeysetCluster (Ok spot) None)
    request 0%nat =
  ((Result0,
    Some (Errorf "unable to load cluster object for node %s: %v"
            [OpString "node-1";
             OpError
               (Errorf "unexpected object type for Cluster %q: %T"
                  [OpPath clusterPath; OpType (ObjOther "*kops.Keyset")])])),
   2%nat, [EvGet request; EvRead clusterPath time_Hour]).
Proof. by_running. Qed.

(** The manifest of the group does not parse; the group name came from the
    identity provider. *)
Example broken_group_manifest :
  Reconcile packages
    (reconciler (freshNode, None) storeBrokenGroup (Ok spot) None)
    request 0%nat =
  ((Result0,
    Some (Errorf "unable to load instance group object for node %s: %v"
            [OpString "node-1";
             OpError
               (Errorf "error parsing %s: %w"
                  [OpPath groupPath;
                   OpError
                     (External "yaml: did not find expected node content")])])),
   4%nat,
   [EvGet request; EvRead clusterPath time_Hour; EvIdentifyNode freshNode;
    EvRead groupPath time_Hour]).
Proof. by_running. Qed.

(** Scenario A of the specification: a fresh node of the group [nodes] gets
    the role label and the group label (and here the spot label), and
    nothing is removed. *)
Example fresh_node_labelled :
  Reconcile packages
    (reconciler (freshNode, None) store (Ok spot) None) request 0%nat =
  ((Result0, None), 6%nat,
   [EvGet request; EvRead clusterPath time_Hour; EvIdentifyNode freshNode;
    EvRead groupPath time_Hour; EvIdentifyNode freshNode;
    EvPatch freshNode
      {[ "node-role.kubernetes.io/node" := "";
         "kops.k8s.io/instancegroup" := "nodes";
         "node-role.kubernetes.io/spot-worker" := "true" ]}
      ∅]).
Proof. by_running. Qed.

(** Scenario B of the specification: the legacy control-plane label of a
    node that now belongs to [nodes] is removed; its spot label of an
    earlier pass is not, although the node is on demand now. *)
Example relabelled_node :
  Reconcile packages
    (reconciler (labelledNode, None) store (Ok onDemand) None) request 0%nat =
  ((Result0, None), 5%nat,
   [EvGet request; EvRead clusterPath time_Hour; EvRead groupPath time_Hour;
    EvIdentifyNode labelledNode;
    EvPatch labelledNode
      {[ "node-role.kubernetes.io/node" := "" ]}
      {[ "node-role.kubernetes.io/master" ]}]).
Proof. by_running. Qed.

(** A pass over the labelled node while the identity provider is down. *)
Lemma lifecycle_lookup_always_witness :
  let r := reconciler (labelledNode, None) store
             (Err (External "RequestExpired")) None in
  let tr : list Event :=
    [EvGet request; EvRead clusterPath time_Hour;
     EvRead groupPath time_Hour] in
  reachesLifecycle packages r request 0%nat labelledNode nodesLabels 3%nat tr ∧
  identifier r labelledNode 3%nat = (Err (External "RequestExpired"), 4%nat) ∧
  Reconcile packages r request 0%nat =
    ((Result0,
      Some (Errorf "unable to get instance lifecycle %s: %v"
              [OpString "node-1";
               OpError (Errorf "error identifying node %q: %v"
                          [OpString "node-1";
                           OpError (External "RequestExpired")])])),
     4%nat, tr ++ [EvIdentifyNode labelledNode]) ∧
  calls isIdentifyNode tr = 0%nat.
Proof.
  intros r tr.
  assert (H1 : reachesLifecycle packages r request 0%nat labelledNode
                 nodesLabels 3%nat tr).
  { exists 1%nat, tt, 2%nat, [EvRead clusterPath time_Hour], "nodes",
      [EvRead groupPath time_Hour].
    repeat split; by_running. }
  assert (H2 : identifier r labelledNode 3%nat =
                 (Err (External "RequestExpired"), 4%nat)) by reflexivity.
  destruct (lifecycle_lookup_always packages r request 0%nat labelledNode
              nodesLabels 3%nat tr H1) as (_ & Hfail & Hlabel).
  split; [exact H1|]. split; [exact H2|]. split.
  - exact (proj1 (Hfail (External "RequestExpired") 4%nat H2)).
  - apply (Hlabel "nodes"); [by_running|by_computing].
Defined.

End Examples.

(** ** More passes on the demo cluster *)

Section MoreExamples.

Import Demo DemoFaults.

Abbreviation k1 := (RoleLabelMaster16 packages).
Abbreviation k2 := (RoleLabelAPIServer16 packages).
Abbreviation k3 := (RoleLabelNode16 packages).
Abbreviation k4 := (RoleLabelControlPlane20 packages).

Ltac by_computing := apply (bool_decide_unpack _); vm_compute; exact I.
Ltac by_running := vm_compute; reflexivity.

(** The API server refuses the fetch. *)
Lemma fetch_error_returned_as_is_witness :
  let r := reconciler (zeroNode, Some (External "Unauthorized")) store
             (Ok onDemand) None in
  client r request 0%nat = ((zeroNode, Some (External "Unauthorized")), 1%nat) ∧
  IsNotFound packages (External "Unauthorized") = false ∧
  Reconcile packages r request 0%nat =
    ((Result0, Some (External "Unauthorized")), 1%nat,
     [EvGet request;
      EvLog Warning "unable to fetch node %s: %v"
        [OpString ""; OpError (External "Unauthorized")]]).
Proof.
  intros r.
  assert (H1 : client r request 0%nat =
                 ((zeroNode, Some (External "Unauthorized")), 1%nat))
    by reflexivity.
  assert (H2 : IsNotFound packages (External "Unauthorized") = false)
    by by_running.
  split; [exact H1|]. split; [exact H2|].
  exact (proj1 (fetch_error_returned_as_is packages r request 0%nat zeroNode
                  (External "Unauthorized") 1%nat H1 H2)).
Defined.

(** The manifest store is down. *)
Lemma cluster_read_failure_reported_witness :
  let r := reconciler (freshNode, None) storeDown (Ok spot) None in
  client r request 0%nat = ((freshNode, None), 1%nat) ∧
  cache r clusterPath time_Hour 1%nat =
    (Err (External "dial tcp: connection refused"), 2%nat) ∧
  Reconcile packages r request 0%nat =
    ((Result0,
      Some (Errorf "unable to load cluster object for node %s: %v"
              [OpString "node-1";
               OpError
                 (Errorf "error loading Cluster %q: %v"
                    [OpPath clusterPath;
                     OpError (External "dial tcp: connection refused")])])),
     2%nat, [EvGet request; EvRead clusterPath time_Hour]).
Proof.
  intros r.
  assert (H1 : client r request 0%nat = ((freshNode, None), 1%nat))
    by reflexivity.
  assert (H2 : cache r (Join packages (configBase r)
                          [PathClusterCompleted packages]) time_Hour 1%nat =
                 (Err (External "dial tcp: connection refused"), 2%nat))
    by by_running.
  split; [exact H1|]. split; [by_running|].
  exact (proj1 (cluster_read_failure_reported packages r request 0%nat
                  freshNode 1%nat _ 2%nat H1 H2)).
Defined.

(** The provider places the fresh node in a group that has no manifest. *)
Lemma group_read_failure_reported_witness :
  let r := reconciler (freshNode, None) store (Ok departed) None in
  resolvesGroupName r freshNode 2%nat "gone" 3%nat [EvIdentifyNode freshNode] ∧
  cache r (base +:+ "/instancegroup/gone") time_Hour 3%nat =
    (Err (External "NotFound"), 4%nat) ∧
  Reconcile packages r request 0%nat =
    ((Result0,
      Some (Errorf "unable to load instance group object for node %s: %v"
              [OpString "node-1";
               OpError
                 (Errorf "error loading InstanceGroup %q: %v"
                    [OpPath (base +:+ "/instancegroup/gone");
                     OpError (External "NotFound")])])),
     4%nat,
     [EvGet request; EvRead clusterPath time_Hour; EvIdentifyNode freshNode;
      EvRead (base +:+ "/instancegroup/gone") time_Hour]).
Proof.
  intros r.
  assert (H1 : client r request 0%nat = ((freshNode, None), 1%nat))
    by reflexivity.
  assert (H2 : getClusterForNode packages r freshNode 1%nat =
                 (Ok tt, 2%nat, [EvRead clusterPath time_Hour]))
    by by_running.
  assert (H3 : resolvesGroupName r freshNode 2%nat "gone" 3%nat
                 [EvIdentifyNode freshNode]).
  { split; [by_computing|]. right. split; [by_running|].
    split; [by_computing|]. exists departed. by repeat split. }
  assert (H4 : cache r (Join packages (configBase r) ["instancegroup"; "gone"])
                 time_Hour 3%nat = (Err (External "NotFound"), 4%nat))
    by by_running.
  split; [exact H3|]. split; [by_running|].
  exact (proj1 (group_read_failure_reported packages r request 0%nat freshNode
                  1%nat tt 2%nat _ "gone" 3%nat _ _ 4%nat H1 H2 H3 H4)).
Defined.

(** The identity provider is down when the fresh node is to be placed. *)
Lemma provider_failure_reported_witness :
  let r := reconciler (freshNode, None) store
             (Err (External "RequestExpired")) None in
  (index (Labels freshNode) "kops.k8s.io/instancegroup").1 = "" ∧
  ProviderID freshNode ≠ "" ∧
  identifier r freshNode 2%nat = (Err (External "RequestExpired"), 3%nat) ∧
  Reconcile packages r request 0%nat =
    ((Result0,
      Some (Errorf "unable to load instance group object for node %s: %v"
              [OpString "node-1";
               OpError (Errorf "error identifying node %q: %v"
                          [OpString "node-1";
                           OpError (External "RequestExpired")])])),
     3%nat,
     [EvGet request; EvRead clusterPath time_Hour; EvIdentifyNode freshNode]).
Proof.
  intros r.
  assert (H1 : client r request 0%nat = ((freshNode, None), 1%nat))
    by reflexivity.
  assert (H2 : getClusterForNode packages r freshNode 1%nat =
                 (Ok tt, 2%nat, [EvRead clusterPath time_Hour]))
    by by_running.
  assert (H3 : (index (Labels freshNode) "kops.k8s.io/instancegroup").1 = "")
    by by_running.
  assert (H4 : ProviderID freshNode ≠ "") by by_computing.
  assert (H5 : identifier r freshNode 2%nat =
                 (Err (External "RequestExpired"), 3%nat)) by reflexivity.
  split; [exact H3|]. split; [exact H4|]. split; [exact H5|].
  exact (proj1 (provider_failure_reported packages r request 0%nat freshNode
                  1%nat tt 2%nat _ _ 3%nat H1 H2 H3 H4 H5)).
Defined.

(** The identity provider knows the instance but no group for it. *)
Lemma provider_without_group_reported_witness :
  let r := reconciler (freshNode, None) store (Ok groupless) None in
  identifier r freshNode 2%nat = (Ok groupless, 3%nat) ∧
  InstanceGroup groupless = "" ∧
  Reconcile packages r request 0%nat =
    ((Result0,
      Some (Errorf "unable to load instance group object for node %s: %v"
              [OpString "node-1";
               OpError
                 (Errorf "node %q did not have an associate instance group"
                    [OpString "node-1"])])),
     3%nat,
     [EvGet request; EvRead clusterPath time_Hour; EvIdentifyNode freshNode]).
Proof.
  intros r.
  assert (H1 : client r request 0%nat = ((freshNode, None), 1%nat))
    by reflexivity.
  assert (H2 : getClusterForNode packages r freshNode 1%nat =
                 (Ok tt, 2%nat, [EvRead clusterPath time_Hour]))
    by by_running.
  assert (H3 : (index (Labels freshNode) "kops.k8s.io/instancegroup").1 = "")
    by by_running.
  assert (H4 : ProviderID freshNode ≠ "") by by_computing.
  assert (H5 : identifier r freshNode 2%nat = (Ok groupless, 3%nat))
    by reflexivity.
  assert (H6 : InstanceGroup groupless = "") by reflexivity.
  split; [exact H5|]. split; [exact H6|].
  exact (proj1 (provider_without_group_reported packages r request 0%nat
                  freshNode 1%nat tt 2%nat _ groupless 3%nat
                  H1 H2 H3 H4 H5 H6)).
Defined.

(** The node with the empty group label and no provider ID. *)
Lemma empty_group_label_is_no_label_witness :
  let r := reconciler (blankNode, None) store (Ok spot) None in
  Labels blankNode !! "kops.k8s.io/instancegroup" = Some "" ∧
  ProviderID blankNode = "" ∧
  getInstanceGroupForNode packages r blankNode 2%nat =
    (Err (Errorf "node providerID not set for node %q" [OpString "node-1"]),
     2%nat, []).
Proof.
  intros r.
  assert (H1 : Labels blankNode !! "kops.k8s.io/instancegroup" = Some "")
    by by_running.
  assert (H2 : ProviderID blankNode = "") by reflexivity.
  split; [exact H1|]. split; [exact H2|].
  exact (proj1 (empty_group_label_is_no_label packages r blankNode 2%nat H1)
           H2).
Defined.

(** The labelled node and the settled node both carry the label [nodes];
    one reconciler has a working identity provider, the other has not. *)
Lemma group_label_trusted_witness :
  let r := reconciler (labelledNode, None) store (Ok spot) None in
  let r' := reconciler (settledNode, None) store
              (Err (External "RequestExpired")) None in
  Labels labelledNode !! "kops.k8s.io/instancegroup" = Some "nodes" ∧
  Labels settledNode !! "kops.k8s.io/instancegroup" = Some "nodes" ∧
  getInstanceGroupForNode packages r labelledNode 2%nat
    = getInstanceGroupForNode packages r' settledNode 2%nat.
Proof.
  intros r r'.
  assert (H1 : Labels labelledNode !! "kops.k8s.io/instancegroup"
               = Some "nodes") by by_running.
  assert (H2 : Labels settledNode !! "kops.k8s.io/instancegroup"
               = Some "nodes") by by_running.
  assert (H3 : "nodes" ≠ "") by by_computing.
  split; [exact H1|]. split; [exact H2|].
  exact (proj1 (group_label_trusted packages r r' labelledNode settledNode
                  "nodes" 2%nat H1 H2 H3 eq_refl eq_refl)).
Defined.

(** The label policy rejects the group of the fresh node. *)
Lemma labels_failure_reported_witness :
  let r := reconciler (freshNode, None) store (Ok spot) None in
  BuildNodeLabels packagesNoLabels tt "nodes"
    = Err (External "unknown instance group role") ∧
  Reconcile packagesNoLabels r request 0%nat =
    ((Result0,
      Some (Errorf "error building node labels for node %q: %w"
              [OpString "node-1";
               OpError (External "unknown instance group role")])),
     4%nat,
     [EvGet request; EvRead clusterPath time_Hour; EvIdentifyNode freshNode;
      EvRead groupPath time_Hour]) ∧
  calls isIdentifyNode (Reconcile packagesNoLabels r request 0%nat).2 = 1%nat.
Proof.
  intros r.
  assert (H1 : client r request 0%nat = ((freshNode, None), 1%nat))
    by reflexivity.
  assert (H2 : getClusterForNode packagesNoLabels r freshNode 1%nat =
                 (Ok tt, 2%nat, [EvRead clusterPath time_Hour]))
    by by_running.
  assert (H3 : getInstanceGroupForNode packagesNoLabels r freshNode 2%nat =
                 (Ok "nodes", 4%nat,
                  [EvIdentifyNode freshNode; EvRead groupPath time_Hour]))
    by by_running.
  assert (H4 : BuildNodeLabels packagesNoLabels tt "nodes"
               = Err (External "unknown instance group role"))
    by reflexivity.
  destruct (labels_failure_reported packagesNoLabels r request 0%nat freshNode
              1%nat tt 2%nat _ "nodes" 4%nat _ _ H1 H2 H3 H4)
    as (Hrun & Hid & _).
  split; [exact H4|]. split; [exact Hrun|]. rewrite Hid. reflexivity.
Defined.

(** The reads of the pass over the fresh node. *)
Lemma reads_under_config_base_witness :
  let r := reconciler (freshNode, None) store (Ok spot) None in
  EvRead groupPath time_Hour ∈ (Reconcile packages r request 0%nat).2 ∧
  (groupPath = Join packages (configBase r) [PathClusterCompleted packages] ∨
   ∃ name, name ≠ "" ∧
           groupPath = Join packages (configBase r) ["instancegroup"; name]).
Proof.
  intros r.
  assert (H1 : EvRead groupPath time_Hour
               ∈ (Reconcile packages r request 0%nat).2).
  { replace (Reconcile packages r request 0%nat).2
      with ([EvGet request; EvRead clusterPath time_Hour;
             EvIdentifyNode freshNode; EvRead groupPath time_Hour;
             EvIdentifyNode freshNode;
             EvPatch freshNode
               (updateLabels (Labels freshNode)
                  (withLifecycle nodesLabels "spot")) ∅] : list Event)
      by by_running.
    rewrite !elem_of_cons. do 3 right. left. reflexivity. }
  split; [exact H1|].
  exact (proj2 (proj1 (reads_under_config_base packages r request 0%nat)
                  groupPath time_Hour H1)).
Defined.

(** The patch of the pass over the fresh node is the diff and not empty. *)
Lemma patch_is_the_diff_witness :
  let r := reconciler (freshNode, None) store (Ok spot) None in
  let u := updateLabels (Labels freshNode) (withLifecycle nodesLabels "spot") in
  EvPatch freshNode u ∅ ∈ (Reconcile packages r request 0%nat).2 ∧
  (u ≠ ∅ ∨ (∅ : gset string) ≠ ∅).
Proof.
  intros r u.
  assert (H1 : EvPatch freshNode u ∅
               ∈ (Reconcile packages r request 0%nat).2).
  { replace (Reconcile packages r request 0%nat).2
      with ([EvGet request; EvRead clusterPath time_Hour;
             EvIdentifyNode freshNode; EvRead groupPath time_Hour;
             EvIdentifyNode freshNode; EvPatch freshNode u ∅] : list Event)
      by by_running.
    rewrite !elem_of_cons. do 5 right. left. reflexivity. }
  split; [exact H1|].
  destruct (patch_is_the_diff packages r request 0%nat freshNode u ∅ H1)
    as (labels & lifecycle & w4 & tr & _ & _ & _ & Hne & _).
  exact Hne.
Defined.

(** The patch of the pass over the labelled node comes after two reads and
    one question to the identity provider. *)
Lemma patch_comes_last_witness :
  let r := reconciler (labelledNode, None) store (Ok onDemand) None in
  let u : gmap string string := {[ "node-role.kubernetes.io/node" := "" ]} in
  let d : gset string := {[ "node-role.kubernetes.io/master" ]} in
  EvPatch labelledNode u d ∈ (Reconcile packages r request 0%nat).2 ∧
  ∃ tr logs,
    (Reconcile packages r request 0%nat).2
      = tr ++ EvPatch labelledNode u d :: logs ∧
    calls isRead tr = 2%nat.
Proof.
  intros r u d.
  assert (H1 : EvPatch labelledNode u d
               ∈ (Reconcile packages r request 0%nat).2).
  { replace (Reconcile packages r request 0%nat).2
      with ([EvGet request; EvRead clusterPath time_Hour;
             EvRead groupPath time_Hour; EvIdentifyNode labelledNode;
             EvPatch labelledNode u d] : list Event)
      by by_running.
    rewrite !elem_of_cons. do 4 right. left. reflexivity. }
  split; [exact H1|].
  destruct (patch_comes_last packages r request 0%nat labelledNode u d H1)
    as (tr & logs & Htr & Hreads & _).
  exists tr, logs. exact (conj Htr Hreads).
Defined.

(** The pass over the settled node succeeds without a patch. *)
Lemma success_means_settled_witness :
  let r := reconciler (settledNode, None) store (Ok onDemand) None in
  client r request 0%nat = ((settledNode, None), 1%nat) ∧
  (Reconcile packages r request 0%nat).1.1.2 = None ∧
  ∃ labels lifecycle w4 tr,
    resolvesLabels packages r request 0%nat settledNode labels lifecycle w4 tr.
Proof.
  intros r.
  assert (H1 : client r request 0%nat = ((settledNode, None), 1%nat))
    by reflexivity.
  assert (H2 : (Reconcile packages r request 0%nat).1.1.2 = None)
    by by_running.
  split; [exact H1|]. split; [exact H2|].
  destruct (success_means_settled packages r request 0%nat settledNode 1%nat
              H1 H2) as (labels & lifecycle & w4 & tr & Hres & _).
  exists labels, lifecycle, w4, tr. exact Hres.
Defined.

(** The pass over the labelled node asks the identity provider once. *)
Lemma labelled_node_asks_provider_once_witness :
  let r := reconciler (labelledNode, None) store (Ok spot) None in
  let tr : list Event :=
    [EvGet request; EvRead clusterPath time_Hour;
     EvRead groupPath time_Hour] in
  Labels labelledNode !! "kops.k8s.io/instancegroup" = Some "nodes" ∧
  reachesLifecycle packages r request 0%nat labelledNode nodesLabels 3%nat tr ∧
  calls isIdentifyNode (Reconcile packages r request 0%nat).2 = 1%nat.
Proof.
  intros r tr.
  assert (H1 : Labels labelledNode !! "kops.k8s.io/instancegroup"
               = Some "nodes") by by_running.
  assert (H2 : "nodes" ≠ "") by by_computing.
  assert (H3 : reachesLifecycle packages r request 0%nat labelledNode
                 nodesLabels 3%nat tr).
  { exists 1%nat, tt, 2%nat, [EvRead clusterPath time_Hour], "nodes",
      [EvRead groupPath time_Hour].
    repeat split; by_running. }
  split; [exact H1|]. split; [exact H3|].
  exact (proj1 (proj2 (labelled_node_asks_provider_once packages r request
                         0%nat labelledNode "nodes" nodesLabels 3%nat tr
                         H1 H2 H3))).
Defined.

(** Somebody puts a label of their own on the labelled node: the diff stays
    what it was. *)
Lemma diff_ignores_other_labels_witness :
  let L := Labels labelledNode in
  let L' := <["example.com/owner" := "alice"]> L in
  let D := withLifecycle nodesLabels "" in
  updateLabels L D = updateLabels L' D ∧
  deleteLabels k1 k2 k3 k4 L D = deleteLabels k1 k2 k3 k4 L' D.
Proof.
  intros L L' D.
  apply (diff_ignores_other_labels k1 k2 k3 k4 L L' D).
  intros k Hk. unfold L'.
  destruct (decide (k = "example.com/owner")) as [->|Hne].
  - exfalso. revert Hk. by_computing.
  - symmetry. by apply lookup_insert_ne.
Defined.

(** The desired labels visited in the other order. *)
Lemma range_order_irrelevant_witness :
  let desired : list (string * string) :=
    [("node-role.kubernetes.io/node", "");
     ("kops.k8s.io/instancegroup", "nodes")] in
  let current : list (string * string) :=
    [("example.com/team", "storage");
     ("node-role.kubernetes.io/spot-worker", "true");
     ("node-role.kubernetes.io/master", "");
     ("kops.k8s.io/instancegroup", "nodes")] in
  NoDup desired.*1 ∧ list_to_map desired = nodesLabels ∧
  NoDup current.*1 ∧ list_to_map current = Labels labelledNode ∧
  rangeUpdate (Labels labelledNode) desired
    = updateLabels (Labels labelledNode) nodesLabels ∧
  rangeDelete k1 k2 k3 k4 nodesLabels current
    = deleteLabels k1 k2 k3 k4 (Labels labelledNode) nodesLabels.
Proof.
  intros desired current.
  assert (H1 : NoDup desired.*1) by by_computing.
  assert (H2 : list_to_map desired = nodesLabels) by by_computing.
  assert (H3 : NoDup current.*1) by by_computing.
  assert (H4 : list_to_map current = Labels labelledNode) by by_computing.
  do 4 (split; [assumption|]).
  exact (range_order_irrelevant k1 k2 k3 k4 (Labels labelledNode) nodesLabels
           desired current H1 H2 H3 H4).
Defined.


(** The constructor on the demo manager, with a good and with a bad
    configuration path. *)
Lemma constructor_all_or_nothing_witness :
  buildVfsPath "s3://clusters/demo" = Err (External "unknown scheme") ∧
  NewLegacyNodeReconciler newForConfig newCache manager buildVfsPath
    "s3://clusters/demo" identifySpot
  = Err (Errorf "cannot parse ConfigBase %q: %v"
           [OpString "s3://clusters/demo";
            OpError (External "unknown scheme")]).
Proof.
  assert (H1 : ∃ c, newForConfig (GetConfig manager) = Ok c)
    by (eexists; reflexivity).
  destruct H1 as [c H1].
  assert (H2 : buildVfsPath "s3://clusters/demo"
               = Err (External "unknown scheme")) by by_running.
  split; [exact H2|].
  exact (proj1 (proj2 (constructor_all_or_nothing newForConfig newCache
                         manager buildVfsPath "s3://clusters/demo"
                         identifySpot)) c _ H1 H2).
Defined.

Lemma constructed_reconciler_reads_under_config_path_witness :
  ∃ r,
    NewLegacyNodeReconciler newForConfig newCache manager buildVfsPath base
      identifySpot = Ok r ∧
    buildVfsPath base = Ok base ∧
    ∀ p ttl,
      EvRead p ttl ∈ (Reconcile packages r request 0%nat).2 →
      ttl = time_Hour ∧
      (p = Join packages base [PathClusterCompleted packages] ∨
       ∃ name, name ≠ "" ∧ p = Join packages base ["instancegroup"; name]).
Proof.
  eexists. split; [by_running|]. split; [by_running|].
  destruct (constructed_reconciler_reads_under_config_path packages
              newForConfig newCache manager buildVfsPath base identifySpot _
              eq_refl) as (base' & Hbase & Hreads).
  vm_compute in Hbase. injection Hbase as <-.
  intros p ttl. apply (Hreads request 0%nat).
Defined.

End MoreExamples.
